(** * cortex: the variational autoencoder of [cortex/built_ins/models/vae.py]

    A shallow embedding of [VAENetwork] (the torch module) and of the [VAE]
    model plugin (its [build] and [routine] hooks), followed by the
    properties of the forward pass and of the lower-bound loss.

    Conventions of the embedding.
    - A tensor is the list of its examples along dimension 0, each example
      flattened to a list of scalars; [size 0] is the length of the outer
      list and [sum(1)] adds up one example.
    - In the statements about which expression is computed and what is
      stored where, scalars are real numbers: rounding, overflow,
      underflow and NaN of the float32 arithmetic torch runs are not
      represented there, and [ln] stands for [torch.log].  Statements
      about the sign of a value, or about a value being exactly zero, are
      made in module [F32] over binary32 numbers instead.  The mean of an
      empty batch, NaN in torch, is 0 over the reals.
    - Python exceptions are values [Raise cls] carrying the class name; a
      method is a function from the object's state to an outcome and the
      state it leaves behind, so that attributes assigned before an
      exception stay assigned.
    - The encoder, the decoder, [ms_ssim], the random generator and the
      constructor of [nn.Linear] belong to torch or to the cortex framework
      and are parameters of the development; the encoder and the decoder
      are taken as functions of their input. *)

From Stdlib Require Import Reals Lra Lia ZArith.
From Stdlib Require SpecFloat.
From stdpp Require Import base option list gmap strings.

Open Scope R_scope.

(** ** Outcomes and the state-and-exception monad *)

Definition exn := string.

Inductive result (A : Type) : Type :=
| Ok (a : A)
| Raise (e : exn).
Arguments Ok {A} a.
Arguments Raise {A} e.

Definition M (S A : Type) : Type := S -> result A * S.

Definition ret {S A} (a : A) : M S A := fun s => (Ok a, s).

Definition bind {S A B} (m : M S A) (k : A -> M S B) : M S B :=
  fun s => match m s with
           | (Ok a, s') => k a s'
           | (Raise e, s') => (Raise e, s')
           end.

Definition lift {S A} (r : result A) : M S A := fun s => (r, s).

Declare Scope vae_scope.
Delimit Scope vae_scope with vae.
Notation "x <- m ;; k" := (bind m (fun x => k))
  (at level 100, m at next level, right associativity) : vae_scope.
Notation "m ;;; k" := (bind m (fun _ => k))
  (at level 100, right associativity) : vae_scope.
Open Scope vae_scope.

(** ** Tensors *)

Definition tensor := list (list R).

(** [t.size()] of a two-dimensional tensor. *)
Definition size (t : tensor) : nat * nat :=
  (length t, match t with [] => 0%nat | r :: _ => length r end).

(** Every example has [d] entries. *)
Definition has_width (d : nat) (t : tensor) : Prop :=
  Forall (fun r => length r = d) t.

Definition same_shape (a b : tensor) : Prop :=
  Forall2 (fun r s => length r = length s) a b.

Definition same_shapeb (a b : tensor) : bool :=
  (length a =? length b)%nat
  && forallb (fun p => (length (fst p) =? length (snd p))%nat) (zip a b).

Definition tensor_map (f : R -> R) (t : tensor) : tensor := map (map f) t.

(** An elementwise binary operation; operands of different shapes are
    rejected (torch broadcasts dimensions of size one, which the heads of
    a [VAENetwork] never need: both have [dim_z] outputs). *)
Definition tensor_map2 (f : R -> R -> R) (a b : tensor) : result tensor :=
  if same_shapeb a b then Ok (zip_with (zip_with f) a b)
  else Raise "RuntimeError".

Definition rsum (l : list R) : R := foldr Rplus 0 l.

(** [t.sum(1)] and [v.mean()]. *)
Definition sum1 (t : tensor) : list R := map rsum t.
Definition mean (v : list R) : R := rsum v / INR (length v).

(** [F.relu], [t.exp_()], [torch.log], [t ** 2], [c * t], [t - c]. *)
Definition relu (t : tensor) : tensor := tensor_map (Rmax 0) t.
Definition exp_ (t : tensor) : tensor := tensor_map exp t.
Definition log (t : tensor) : tensor := tensor_map ln t.
Definition pow2 (t : tensor) : tensor := tensor_map (fun x => x ^ 2) t.
Definition scale (c : R) (t : tensor) : tensor := tensor_map (Rmult c) t.
Definition minus_const (t : tensor) (c : R) : tensor :=
  tensor_map (fun x => x - c) t.
Definition add := tensor_map2 Rplus.
Definition sub := tensor_map2 Rminus.
Definition mul := tensor_map2 Rmult.

(** ** [nn.Linear] *)

Record Linear := mkLinear {
  in_features : nat;
  out_features : nat;
  weight : list (list R);   (* out_features rows of in_features entries *)
  bias : list R             (* out_features entries *)
}.

Definition wf_Linear (L : Linear) : Prop :=
  length (weight L) = out_features L
  /\ length (bias L) = out_features L
  /\ Forall (fun w => length w = in_features L) (weight L).

Definition dot (u v : list R) : R := rsum (zip_with Rmult u v).

Definition Linear_row (L : Linear) (x : list R) : list R :=
  zip_with (fun w b => dot x w + b) (weight L) (bias L).

(** [L(x)]: [x @ weight.T + bias], refused when an example does not have
    [in_features] entries. *)
Definition Linear_call (L : Linear) (x : tensor) : result tensor :=
  if forallb (fun r => (length r =? in_features L)%nat) x
  then Ok (map (Linear_row L) x)
  else Raise "RuntimeError".

(** ** Python values handed to constructors *)

Inductive pyval :=
| PyNone
| PyInt (z : Z)
| PyFloat (r : R)
| PyStr (s : string).

(** ** [VAENetwork] *)

Record VAENetwork := mkVAENetwork {
  mu_net : Linear;
  logvar_net : Linear;
  mu : option tensor;
  logvar : option tensor;
  latent : option tensor;
  std : option tensor;      (* attribute created by [forward] *)
  training : bool
}.

Definition set_mu (v : tensor) (n : VAENetwork) : VAENetwork :=
  mkVAENetwork (mu_net n) (logvar_net n) (Some v) (logvar n) (latent n)
               (std n) (training n).
Definition set_std (v : tensor) (n : VAENetwork) : VAENetwork :=
  mkVAENetwork (mu_net n) (logvar_net n) (mu n) (logvar n) (latent n)
               (Some v) (training n).
Definition set_latent (v : tensor) (n : VAENetwork) : VAENetwork :=
  mkVAENetwork (mu_net n) (logvar_net n) (mu n) (logvar n) (Some v)
               (std n) (training n).
(** ** The state of the [VAE] plugin: [nets], [losses], [results] *)

Record VAE := mkVAE {
  nets_vae : option VAENetwork;
  losses : gmap string R;
  results : gmap string R
}.

Definition set_nets_vae (n : VAENetwork) (p : VAE) : VAE :=
  mkVAE (Some n) (losses p) (results p).
Definition set_loss (k : string) (v : R) (p : VAE) : VAE :=
  mkVAE (nets_vae p) (<[k := v]> (losses p)) (results p).
Definition update_results (kvs : list (string * R)) (p : VAE) : VAE :=
  mkVAE (nets_vae p) (losses p)
        (foldl (fun m kv => <[kv.1 := kv.2]> m) (results p) kvs).

(** ** What the visualisation hooks hand to the framework *)

Inductive artifact :=
| Image (t : tensor) (name : string)
| Scatter (t : tensor) (labels : option tensor) (name : string).

(** ** The classifier of [models/classifier.py] *)

Module Classifier.

(** Values of the keyword arguments of the network. *)
Inductive argval :=
| ABool (b : bool)
| AInt (z : Z)
| AFloat (r : R)
| AStr (s : string).

(** The module-level dictionary [classifier_args_] as the file defines
    it; calls of [build_model] run in its current value. *)
Definition classifier_args_ : gmap string argval :=
  list_to_map
    [("dim_h", AInt 256); ("batch_norm", ABool true);
     ("dropout", AFloat 0.5); ("nonlinearity", AStr "ReLU");
     ("f_size", AInt 4); ("stride", AInt 2); ("pad", AInt 1);
     ("min_dim", AInt 4)].

(** The function [results], as the value stored in a dictionary. *)
Inductive routine_fn := results_fn.

(** [predicted.eq(targets.data).cpu().sum()]: the number of positions at
    which the two label vectors agree; vectors of different lengths are
    refused (torch would broadcast a vector of one label, which is not
    represented: the statements ask for equal lengths). *)
Fixpoint agreements (p t : list nat) : nat :=
  match p, t with
  | a :: p, b :: t => (if (a =? b)%nat then 1 else 0) + agreements p t
  | _, _ => 0
  end.

Definition eq_sum (p t : list nat) : result nat :=
  if (length p =? length t)%nat then Ok (agreements p t)
  else Raise "RuntimeError".

Section Classifier.

(** [torch.max(outputs.data, 1)], the index of a largest entry of each
    example. *)
Variable max1 : tensor -> list nat.

(** [results(net, inputs, criterion)]; [net] is called with
    [nonlinearity=F.log_softmax].  The accuracy divides by
    [targets.size(0)]; the statements ask for a batch that is not
    empty. *)
Definition results (net : tensor -> tensor) (inputs : tensor * list nat)
    (criterion : tensor -> list nat -> R)
  : result (R * gmap string R * string) :=
  let (images, targets) := inputs in
  let outputs := net images in
  let loss := criterion outputs targets in
  let predicted := max1 outputs in
  match eq_sum predicted targets with
  | Ok k =>
      let correct := 100 * INR k / INR (length targets) in
      Ok (loss, <["accuracy" := correct]> (<["loss" := loss]> ∅), "accuracy")
  | Raise e => Raise e
  end.

(** The names [DIM_X], [DIM_Y], [DIM_C], [DIM_L] that the framework binds
    in the module, and the network class [Net]. *)
Variable network : Type.
Variable DIM_X DIM_Y DIM_C DIM_L : Z.
Variable Net : Z * Z * Z -> Z -> gmap string argval -> result network.

(** [build_model(loss=None, classifier_args=None)].  [args] is the
    module-level dictionary itself, so [args.update] changes it for the
    calls that follow; the state is its current value. *)
Definition build_model {L : Type} (loss : option L)
    (classifier_args : option (gmap string argval))
  : M (gmap string argval)
      (gmap string network * gmap string (option L)
       * gmap string routine_fn) :=
  let classifier_args := default ∅ classifier_args in
  fun classifier_args_ =>
    let args := classifier_args ∪ classifier_args_ in
    let shape := (DIM_X, DIM_Y, DIM_C) in
    match Net shape DIM_L args with
    | Ok net =>
        (Ok ({["classifier" := net]}, {["classifier" := loss]},
             {["classifier" := results_fn]}), args)
    | Raise e => (Raise e, args)
    end.

End Classifier.

End Classifier.

(** ** The arithmetic of the module in binary32

    Where a statement is about the sign of a value or about a value being
    exactly zero, real numbers do not stand for what torch computes.  The
    module and the KL expression are therefore given once more over
    IEEE 754 binary32 numbers (24 bits of precision, round to nearest
    even), with the same structure as over the reals.  [exp32] and
    [log32] stand for torch's elementwise [exp] and [log]; sums add from
    the right, starting from [+0]. *)

Module F32.

Definition f32 : Type := SpecFloat.spec_float.

Definition prec : Z := 24.
Definition emax : Z := 128.

Definition add : f32 -> f32 -> f32 := SpecFloat.SFadd prec emax.
Definition sub : f32 -> f32 -> f32 := SpecFloat.SFsub prec emax.
Definition mul : f32 -> f32 -> f32 := SpecFloat.SFmul prec emax.
Definition div : f32 -> f32 -> f32 := SpecFloat.SFdiv prec emax.
Definition ltb : f32 -> f32 -> bool := SpecFloat.SFltb.

Definition of_Z (z : Z) : f32 := SpecFloat.binary_normalize prec emax z 0 false.
Definition of_nat (n : nat) : f32 := of_Z (Z.of_nat n).

Definition zero : f32 := SpecFloat.S754_zero false.
Definition one : f32 := of_Z 1.
Definition two : f32 := of_Z 2.
Definition half : f32 := div one two.

Definition ftensor : Type := list (list f32).

Definition size (t : ftensor) : nat * nat :=
  (length t, match t with [] => 0%nat | r :: _ => length r end).

Definition same_shapeb (a b : ftensor) : bool :=
  (length a =? length b)%nat
  && forallb (fun p => (length (fst p) =? length (snd p))%nat) (zip a b).

Definition tensor_map (f : f32 -> f32) (t : ftensor) : ftensor :=
  map (map f) t.

Definition tensor_map2 (f : f32 -> f32 -> f32) (a b : ftensor)
  : result ftensor :=
  if same_shapeb a b then Ok (zip_with (zip_with f) a b)
  else Raise "RuntimeError".

Definition fsum (l : list f32) : f32 := foldr add zero l.
Definition sum1 (t : ftensor) : list f32 := map fsum t.
Definition mean (v : list f32) : f32 := div (fsum v) (of_nat (length v)).

(** [F.relu], the threshold at 0: [x] where [x > 0], else 0. *)
Definition relu (t : ftensor) : ftensor :=
  tensor_map (fun x => if ltb zero x then x else zero) t.
Definition pow2 (t : ftensor) : ftensor := tensor_map (fun x => mul x x) t.
Definition scale (c : f32) (t : ftensor) : ftensor := tensor_map (mul c) t.
Definition minus_const (t : ftensor) (c : f32) : ftensor :=
  tensor_map (fun x => sub x c) t.
Definition tadd := tensor_map2 add.
Definition tsub := tensor_map2 sub.
Definition tmul := tensor_map2 mul.

Record Linear := mkLinear {
  in_features : nat;
  out_features : nat;
  weight : list (list f32);
  bias : list f32
}.

Definition dot (u v : list f32) : f32 := fsum (zip_with mul u v).

Definition Linear_row (L : Linear) (x : list f32) : list f32 :=
  zip_with (fun w b => add (dot x w) b) (weight L) (bias L).

Definition Linear_call (L : Linear) (x : ftensor) : result ftensor :=
  if forallb (fun r => (length r =? in_features L)%nat) x
  then Ok (map (Linear_row L) x)
  else Raise "RuntimeError".

Record VAENetwork := mkVAENetwork {
  mu_net : Linear;
  logvar_net : Linear;
  mu : option ftensor;
  logvar : option ftensor;
  latent : option ftensor;
  std : option ftensor;
  training : bool
}.

Definition set_mu (v : ftensor) (n : VAENetwork) : VAENetwork :=
  mkVAENetwork (mu_net n) (logvar_net n) (Some v) (logvar n) (latent n)
               (std n) (training n).
Definition set_std (v : ftensor) (n : VAENetwork) : VAENetwork :=
  mkVAENetwork (mu_net n) (logvar_net n) (mu n) (logvar n) (latent n)
               (Some v) (training n).
Definition set_latent (v : ftensor) (n : VAENetwork) : VAENetwork :=
  mkVAENetwork (mu_net n) (logvar_net n) (mu n) (logvar n) (Some v)
               (std n) (training n).

Section VAE.

(** torch's [exp] and [log] of one binary32 number. *)
Variable exp32 log32 : f32 -> f32.

Variable rng : Type.
Variable normal_ : nat * nat -> rng -> ftensor * rng.
Variable nonlinearity : Type.
Variable encoder : ftensor -> ftensor.
Variable decoder : ftensor -> option nonlinearity -> ftensor.

Definition exp_ (t : ftensor) : ftensor := tensor_map exp32 t.
Definition log (t : ftensor) : ftensor := tensor_map log32 t.

Definition net_state : Type := VAENetwork * rng.

Definition self : M net_state VAENetwork := fun s => (Ok (fst s), s).
Definition assign (f : VAENetwork -> VAENetwork) : M net_state unit :=
  fun s => (Ok tt, (f (fst s), snd s)).
Definition draw_normal (sz : nat * nat) : M net_state ftensor :=
  fun s => let (e, g) := normal_ sz (snd s) in (Ok e, (fst s, g)).

(** [VAENetwork.reparametrize] *)
Definition reparametrize (mu std : ftensor) : M net_state ftensor :=
  n <- self ;;
  if training n then
    esp <- draw_normal (size std) ;;
    se <- lift (tmul std esp) ;;
    lift (tadd mu se)
  else ret mu.

(** [VAENetwork.forward] *)
Definition forward (x : ftensor) (nl : option nonlinearity)
  : M net_state ftensor :=
  let encoded := encoder x in
  let encoded := relu encoded in
  n <- self ;;
  m <- lift (Linear_call (mu_net n) encoded) ;;
  assign (set_mu m) ;;;
  n <- self ;;
  lv <- lift (Linear_call (logvar_net n) encoded) ;;
  assign (set_std (exp_ lv)) ;;;
  z <- reparametrize m (exp_ lv) ;;
  assign (set_latent z) ;;;
  ret (decoder z nl).

(** The KL term of [VAE.routine]:
    [0.5 * (std**2 + mu**2 - 2. * torch.log(std) - 1.).sum(1).mean()]. *)
Definition kl_of (std mu : ftensor) : result f32 :=
  match tadd (pow2 std) (pow2 mu) with
  | Ok s1 =>
      match tsub s1 (scale two (log std)) with
      | Ok s2 => Ok (mul half (mean (sum1 (minus_const s2 one))))
      | Raise e => Raise e
      end
  | Raise e => Raise e
  end.

End VAE.

(** Two tensors with as many examples, of the same lengths. *)
Definition same_shape (a b : ftensor) : Prop :=
  Forall2 (fun r s => length r = length s) a b.







End F32.

(** ** A small instance on which the definitions run

    Batches of one-entry examples, an identity encoder and decoder, a
    generator that counts its draws and hands out ones, and a constructor
    of [nn.Linear] that fills the layer with zeros. *)

Module Toy.

Definition rng : Type := nat.

Definition normal_ (sz : nat * nat) (g : rng) : tensor * rng :=
  (repeat (repeat 1 (snd sz)) (fst sz), S g).

Definition nonlinearity : Type := unit.
Definition encoder (x : tensor) : tensor := x.
Definition decoder (z : tensor) (nl : option nonlinearity) : tensor := z.
Definition decoder_call (z : tensor) : tensor := z.

Definition zeros (i o : nat) : Linear :=
  mkLinear i o (repeat (repeat 0 i) o) (repeat 0 o).

Definition nn_Linear (i o : pyval) (g : rng) : result Linear * rng :=
  match i, o with
  | PyInt i, PyInt o =>
      if ((0 <=? i) && (0 <=? o))%Z
      then (Ok (zeros (Z.to_nat i) (Z.to_nat o)), S g)
      else (Raise "RuntimeError", g)
  | _, _ => (Raise "TypeError", g)
  end.

Definition encoder_build : result unit := Ok tt.
Definition decoder_build : result unit := Ok tt.
Definition add_noise (name dist : string) (sz : pyval) : result unit := Ok tt.
Definition ms_ssim (a b : tensor) : R := 1.

(** A head with one input and one output. *)
Definition head (w b : R) : Linear := mkLinear 1 1 [[w]] [b].

(** The mean head copies its input, the log-variance head answers zero. *)
Definition net (training : bool) : VAENetwork :=
  mkVAENetwork (head 1 0) (head 0 0) None None None None training.

(** The module that the constructor builds for one feature and one
    latent dimension. *)
Definition built : VAENetwork :=
  mkVAENetwork (zeros 1 1) (zeros 1 1) None None None None true.

Definition x0 : tensor := [[2]].

Definition plugin (training : bool) : VAE :=
  mkVAE (Some (net training)) ∅ ∅.

Definition empty_plugin : VAE := mkVAE None ∅ ∅.

End Toy.

Section VAE.

(** The global random generator and [t.new(size).normal_()]. *)
Variable rng : Type.
Variable normal_ : nat * nat -> rng -> tensor * rng.

(** The networks built by the encoder and decoder plugins. *)
Variable nonlinearity : Type.
Variable encoder : tensor -> tensor.
Variable decoder : tensor -> option nonlinearity -> tensor.

(** The state a method of the module runs in: the module and the
    generator. *)
Definition net_state : Type := VAENetwork * rng.

Definition self : M net_state VAENetwork := fun s => (Ok (fst s), s).
Definition assign (f : VAENetwork -> VAENetwork) : M net_state unit :=
  fun s => (Ok tt, (f (fst s), snd s)).
Definition draw_normal (sz : nat * nat) : M net_state tensor :=
  fun s => let (e, g) := normal_ sz (snd s) in (Ok e, (fst s, g)).

(** [VAENetwork.encode] *)
Definition encode (inputs : tensor) : M net_state tensor :=
  let encoded := encoder inputs in
  let encoded := relu encoded in
  n <- self ;;
  lift (Linear_call (mu_net n) encoded).

(** [VAENetwork.reparametrize] *)
Definition reparametrize (mu std : tensor) : M net_state tensor :=
  n <- self ;;
  if training n then
    esp <- draw_normal (size std) ;;
    se <- lift (mul std esp) ;;
    lift (add mu se)
  else ret mu.

(** [VAENetwork.forward] *)
Definition forward (x : tensor) (nl : option nonlinearity)
  : M net_state tensor :=
  let encoded := encoder x in
  let encoded := relu encoded in
  n <- self ;;
  m <- lift (Linear_call (mu_net n) encoded) ;;
  assign (set_mu m) ;;;
  n <- self ;;
  lv <- lift (Linear_call (logvar_net n) encoded) ;;
  assign (set_std (exp_ lv)) ;;;
  z <- reparametrize m (exp_ lv) ;;
  assign (set_latent z) ;;;
  ret (decoder z nl).

(** [VAENetwork.__init__]: the two heads are fresh [nn.Linear] modules
    from [dim_out] to [dim_z]; a new module is in training mode. *)
Variable nn_Linear : pyval -> pyval -> rng -> result Linear * rng.

Definition VAENetwork_init (dim_out dim_z : pyval) : M rng VAENetwork :=
  mu_net <- nn_Linear dim_out dim_z ;;
  logvar_net <- nn_Linear dim_out dim_z ;;
  ret (mkVAENetwork mu_net logvar_net None None None None true).

(** ** The [VAE] plugin *)

Definition plugin_state : Type := VAE * rng.

Definition update_plugin (f : VAE -> VAE) : M plugin_state unit :=
  fun s => (Ok tt, (f (fst s), snd s)).

(** Running a method of [self.nets.vae]: the module is one object, so
    what the method assigns is seen through [self.nets.vae] afterwards. *)
Definition on_vae {A} (m : M net_state A) : M plugin_state A :=
  fun s =>
    match nets_vae (fst s) with
    | None => (Raise "AttributeError", s)
    | Some n =>
        let (r, s') := m (n, snd s) in
        (r, (set_nets_vae (fst s') (fst s), snd s'))
    end.

Definition on_rng {A} (m : M rng A) : M plugin_state A :=
  fun s => let (r, g) := m (snd s) in (r, (fst s, g)).

(** Reading an attribute of [self.nets.vae] that holds a tensor. *)
Definition vae_attr (f : VAENetwork -> option tensor)
  : M plugin_state tensor :=
  fun s =>
    match nets_vae (fst s) with
    | None => (Raise "AttributeError", s)
    | Some n =>
        match f n with
        | Some t => (Ok t, s)
        | None => (Raise "AttributeError", s)
        end
    end.

(** Builds of the encoder and decoder plugins and the framework's
    [add_noise]: what they register is not part of this state, only
    whether they raise. *)
Variable encoder_build decoder_build : result unit.
Variable add_noise : string -> string -> pyval -> result unit.

(** [VAE.build(dim_z=64, dim_encoder_out=1024)]; [None] is an argument
    the caller left out. *)
Definition build (dim_z dim_encoder_out : option pyval)
  : M plugin_state unit :=
  let dim_z := default (PyInt 64) dim_z in
  let dim_encoder_out := default (PyInt 1024) dim_encoder_out in
  lift encoder_build ;;;
  lift decoder_build ;;;
  lift (add_noise "Z" "normal" dim_z) ;;;
  vae <- on_rng (VAENetwork_init dim_encoder_out dim_z) ;;
  update_plugin (set_nets_vae vae).

(** A reconstruction criterion: prediction, target and the
    [size_average] flag. *)
Definition criterion : Type := tensor -> tensor -> bool -> result R.

Definition numel (t : tensor) : nat := length (concat t).

(** [F.mse_loss]: the squared differences, added up, and divided by the
    number of elements when [size_average] is set. *)
Definition mse_loss : criterion := fun input target size_average =>
  match sub input target with
  | Ok d =>
      let s := rsum (sum1 (pow2 d)) in
      Ok (if size_average then s / INR (numel d) else s)
  | Raise e => Raise e
  end.

Variable ms_ssim : tensor -> tensor -> R.

(** The two terms of the lower bound, as [routine] writes them. *)
Definition r_loss_of (vae_criterion : criterion) (outputs inputs : tensor)
  : result R :=
  match vae_criterion outputs inputs false with
  | Ok c => Ok (c / INR (length inputs))
  | Raise e => Raise e
  end.

Definition kl_of (std mu : tensor) : result R :=
  match add (pow2 std) (pow2 mu) with
  | Ok s1 =>
      match sub s1 (scale 2 (log std)) with
      | Ok s2 => Ok (0.5 * mean (sum1 (minus_const s2 1)))
      | Raise e => Raise e
      end
  | Raise e => Raise e
  end.

(** [VAE.routine(inputs, targets, Z, vae_criterion=F.mse_loss,
    beta_kld=1.)] *)
Definition routine (inputs targets Z : tensor)
    (vae_criterion : option criterion) (beta_kld : option R)
  : M plugin_state unit :=
  let vae_criterion := default mse_loss vae_criterion in
  let beta_kld := default 1 beta_kld in
  outputs <- on_vae (forward inputs None) ;;
  r_loss <- lift (r_loss_of vae_criterion outputs inputs) ;;
  std <- vae_attr std ;;
  mu <- vae_attr mu ;;
  kl <- lift (kl_of std mu) ;;
  let msssim := ms_ssim inputs outputs in
  update_plugin (set_loss "vae" (r_loss + beta_kld * kl)) ;;;
  update_plugin
    (update_results [("KL_divergence", kl); ("ms_ssim", msssim)]).

(** ** The encoder and decoder plugins *)

(** [self.nets.decoder(Z)]: the decoder called without the keyword
    [nonlinearity]. *)
Variable decoder_call : tensor -> tensor.

(** [ImageEncoder.encode] and [ImageDecoder.decode] *)
Definition ImageEncoder_encode (inputs : tensor) : tensor := encoder inputs.
Definition ImageDecoder_decode (Z : tensor) : tensor := decoder_call Z.

(** [ImageDecoder.routine(inputs, Z, decoder_crit=F.mse_loss)]; the
    criterion is called without [size_average], which torch's criteria
    take as [True]. *)
Definition ImageDecoder_routine (inputs Z : tensor)
    (decoder_crit : option criterion) : M plugin_state unit :=
  let decoder_crit := default mse_loss decoder_crit in
  let X := ImageDecoder_decode Z in
  c <- lift (decoder_crit X inputs true) ;;
  update_plugin (set_loss "decoder" (c / INR (length inputs))) ;;;
  let msssim := ms_ssim inputs X in
  update_plugin (update_results [("ms_ssim", msssim)]).

(** ** Visualisation *)

(** The plugin's state together with what has been handed to the
    framework for display, oldest first. *)
Definition viz_state : Type := plugin_state * list artifact.

Definition on_plugin {A} (m : M plugin_state A) : M viz_state A :=
  fun s => let (r, p) := m (fst s) in (r, (p, snd s)).

Definition add_image (t : tensor) (name : string) : M viz_state unit :=
  fun s => (Ok tt, (fst s, snd s ++ [Image t name])).

Definition add_scatter (t : tensor) (labels : option tensor)
    (name : string) : M viz_state unit :=
  fun s => (Ok tt, (fst s, snd s ++ [Scatter t labels name])).

(** [targets.data]; [None] has no such attribute. *)
Definition data (targets : option tensor) : M viz_state tensor :=
  match targets with
  | Some t => ret t
  | None => lift (Raise "AttributeError")
  end.

(** [ImageEncoder.visualize] *)
Definition ImageEncoder_visualize (inputs : tensor)
    (targets : option tensor) : M viz_state unit :=
  let Z := ImageEncoder_encode inputs in
  targets <- match targets with
             | Some _ => t <- data targets ;; ret (Some t)
             | None => ret None
             end ;;
  add_scatter Z targets "latent values".

(** [ImageDecoder.visualize] *)
Definition ImageDecoder_visualize (Z : tensor) : M viz_state unit :=
  let gen := ImageDecoder_decode Z in
  add_image gen "generated".

(** [VAE.visualize] *)
Definition VAE_visualize (inputs : tensor) (targets : option tensor)
  : M viz_state unit :=
  outputs <- on_plugin (on_vae (forward inputs None)) ;;
  add_image outputs "reconstruction" ;;;
  add_image inputs "ground truth" ;;;
  m <- on_plugin (vae_attr mu) ;;
  labels <- data targets ;;
  add_scatter m (Some labels) "latent values" ;;;
  m <- on_plugin (vae_attr mu) ;;
  ImageDecoder_visualize m.

(** The KL term in the words of the specification: the mean over the
    batch of half the sum, over the latent dimensions, of
    [std^2 + mean^2 - 2*log(std) - 1]. *)
Definition kl_elem (s m : R) : R := s ^ 2 + m ^ 2 - 2 * ln s - 1.

Definition kl_spec (std mu : tensor) : R :=
  mean (zip_with (fun s m => 0.5 * rsum (zip_with kl_elem s m)) std mu).

(** ** Predicates used in the statements *)

(** The contract of [normal_]: the draw has the size asked for. *)
Definition normal_sized : Prop :=
  forall sz g, length (fst (normal_ sz g)) = fst sz
               /\ has_width (snd sz) (fst (normal_ sz g)).

(** Both heads accept the encoder's features and give [dz] outputs. *)
Definition heads_accept (dz : nat) (n : VAENetwork) (x : tensor) : Prop :=
  wf_Linear (mu_net n) /\ wf_Linear (logvar_net n)
  /\ out_features (mu_net n) = dz /\ out_features (logvar_net n) = dz
  /\ has_width (in_features (mu_net n)) (encoder x)
  /\ has_width (in_features (logvar_net n)) (encoder x).

(** The state [routine] leaves when every step succeeds. *)
Definition routine_post (p : VAE) (n' : VAENetwork) (inputs outputs : tensor)
    (beta_kld : option R) (r_loss kl : R) : VAE :=
  update_results
    [("KL_divergence", kl); ("ms_ssim", ms_ssim inputs outputs)]
    (set_loss "vae" (r_loss + default 1 beta_kld * kl) (set_nets_vae n' p)).

(** The contract of torch's constructor: [nn.Linear(i, o)], when it
    returns, is a layer from [i] to [o] features. *)
Definition nn_Linear_sized : Prop :=
  forall i o g L g',
    nn_Linear (PyInt i) (PyInt o) g = (Ok L, g') ->
    wf_Linear L /\ in_features L = Z.to_nat i /\ out_features L = Z.to_nat o.

(** [n] is a module that [VAENetwork(encoder, decoder, dim_out, dim_z)]
    built, in any later state of its attributes. *)
Definition built_with (dim_out dim_z : Z) (n : VAENetwork) : Prop :=
  exists g0 g1 n0,
    VAENetwork_init (PyInt dim_out) (PyInt dim_z) g0 = (Ok n0, g1)
    /\ mu_net n = mu_net n0 /\ logvar_net n = logvar_net n0.

(** * Properties *)

(** ** Shapes *)

Lemma same_shapeb_spec (a b : tensor) :
same_shapeb a b = true <-> same_shape a b.
Proof.
unfold same_shapeb, same_shape.
revert b; induction a as [|r a IH]; intros [|s b]; simpl.
- split; [constructor | reflexivity].
- split; [discriminate | inversion 1].
- split; [discriminate | inversion 1].
- specialize (IH b). rewrite andb_true_iff in IH.
  rewrite !andb_true_iff, !Nat.eqb_eq in *. split.
  + intros (Hl & Hr & Hz). constructor; [exact Hr|]. apply IH. split; [lia | exact Hz].
  + inversion 1; subst. destruct IH as [_ IH]. destruct (IH H5) as [Hl Hz].
    split; [lia | split; assumption].
Qed.

Lemma same_shape_width (d : nat) (a b : tensor) :
has_width d a -> has_width d b -> length a = length b -> same_shape a b.
Proof.
unfold has_width, same_shape. intros Ha; revert b.
induction Ha as [|r a Hr Ha IH]; intros [|s b] Hb Hl; simpl in Hl;
  try discriminate; constructor.
- inversion Hb; subst. congruence.
- inversion Hb; subst. apply IH; [assumption | lia].
Qed.

Lemma tensor_map_width (f : R -> R) (d : nat) (t : tensor) :
has_width d t -> has_width d (tensor_map f t).
Proof.
unfold has_width, tensor_map. intros H.
apply Forall_map. eapply Forall_impl; [exact H|].
intros r Hr; simpl. now rewrite length_map.
Qed.

Lemma tensor_map_shape (f : R -> R) (t : tensor) :
same_shape (tensor_map f t) t.
Proof.
induction t as [|r t IH]; simpl; constructor; [|exact IH].
now rewrite length_map.
Qed.

Lemma same_shape_sym (a b : tensor) : same_shape a b -> same_shape b a.
Proof. induction 1; constructor; auto. Qed.

Lemma same_shape_trans (a b c : tensor) :
same_shape a b -> same_shape b c -> same_shape a c.
Proof.
unfold same_shape. intros Hab; revert c.
induction Hab as [|r s a b Hrs Hab IH]; intros c Hbc;
  inversion Hbc; subst; constructor.
- congruence.
- now apply IH.
Qed.

Lemma tensor_map2_ok (f : R -> R -> R) (a b : tensor) :
same_shape a b -> tensor_map2 f a b = Ok (zip_with (zip_with f) a b).
Proof.
intros H. unfold tensor_map2.
apply same_shapeb_spec in H. now rewrite H.
Qed.

Lemma tensor_map2_inv (f : R -> R -> R) (a b c : tensor) :
tensor_map2 f a b = Ok c ->
same_shape a b /\ c = zip_with (zip_with f) a b.
Proof.
unfold tensor_map2. destruct (same_shapeb a b) eqn:E; [|discriminate].
intros [= <-]. split; [now apply same_shapeb_spec | reflexivity].
Qed.

Lemma zip_with_shape_l (f : R -> R -> R) (a b : tensor) :
same_shape a b -> same_shape (zip_with (zip_with f) a b) a.
Proof.
induction 1 as [|r s a b Hrs Hab IH]; simpl; constructor; [|exact IH].
rewrite length_zip_with. lia.
Qed.

(** ** [nn.Linear] *)

Lemma Linear_call_ok (L : Linear) (x : tensor) :
has_width (in_features L) x ->
Linear_call L x = Ok (map (Linear_row L) x).
Proof.
intros H. unfold Linear_call.
replace (forallb _ x) with true; [reflexivity|].
symmetry. apply forallb_forall. intros r Hr. apply Nat.eqb_eq.
unfold has_width in H. rewrite Forall_forall in H. apply H.
now apply list_elem_of_In.
Qed.

Lemma Linear_call_inv (L : Linear) (x y : tensor) :
Linear_call L x = Ok y ->
has_width (in_features L) x /\ y = map (Linear_row L) x.
Proof.
unfold Linear_call. destruct (forallb _ x) eqn:E; [|discriminate].
intros [= <-]. split; [|reflexivity].
unfold has_width. apply Forall_forall. intros r Hr.
rewrite forallb_forall in E. apply Nat.eqb_eq, E.
now apply list_elem_of_In.
Qed.

Lemma Linear_row_length (L : Linear) (x : list R) :
wf_Linear L -> length (Linear_row L x) = out_features L.
Proof.
intros (Hw & Hb & _). unfold Linear_row.
rewrite length_zip_with. lia.
Qed.

Lemma Linear_out_width (L : Linear) (x : tensor) :
wf_Linear L -> has_width (out_features L) (map (Linear_row L) x).
Proof.
intros H. unfold has_width. apply Forall_map, Forall_forall.
intros r _. simpl. now apply Linear_row_length.
Qed.

(** ** The forward pass *)

Lemma reparametrize_eval (m s : tensor) (st : net_state) :
  training (fst st) = false -> reparametrize m s st = (Ok m, st).
Proof.
  intros H. unfold reparametrize, bind, self, ret. now rewrite H.
Qed.

Lemma reparametrize_net (m s : tensor) (st : net_state) :
  fst (snd (reparametrize m s st)) = fst st.
Proof.
  unfold reparametrize, bind, self, draw_normal, lift, ret.
  destruct (training (fst st)); [|reflexivity].
  destruct (normal_ (size s) (snd st)) as [e g]; simpl.
  destruct (mul s e); simpl; [|reflexivity].
  reflexivity.
Qed.

Lemma sized_same_shape (d : nat) (s e : tensor) :
  has_width d s -> length e = fst (size s) -> has_width (snd (size s)) e ->
  same_shape s e.
Proof.
  intros Hs Hl He. destruct s as [|r s]; simpl in *.
  - destruct e; [constructor | discriminate].
  - apply (same_shape_width (length r)); [| exact He | now rewrite Hl].
    inversion Hs; subst. exact Hs.
Qed.

Lemma reparametrize_train (d : nat) (m s : tensor) (n : VAENetwork) (g : rng) :
  normal_sized -> training n = true ->
  has_width d m -> has_width d s -> length m = length s ->
  reparametrize m s (n, g) =
    (Ok (zip_with (zip_with Rplus) m
           (zip_with (zip_with Rmult) s (fst (normal_ (size s) g)))),
     (n, snd (normal_ (size s) g))).
Proof.
  intros Hn Ht Hm Hs Hl.
  unfold reparametrize, bind, self, draw_normal, lift; cbv [fst snd].
  rewrite Ht.
  destruct (Hn (size s) g) as [Hel Hew].
  destruct (normal_ (size s) g) as [e g']; cbv [fst snd] in *.
  assert (Hse : same_shape s e) by (eapply sized_same_shape; eauto).
  unfold mul. rewrite (tensor_map2_ok _ _ _ Hse).
  unfold add. rewrite tensor_map2_ok; [reflexivity|].
  eapply same_shape_trans; [| apply same_shape_sym, zip_with_shape_l, Hse].
  now apply (same_shape_width d).
Qed.

(** Once both heads have answered, [mu] and [std] are recorded and the
    rest of the pass is the sampler followed by the decoder. *)
Lemma forward_heads (x : tensor) (nl : option nonlinearity)
    (n : VAENetwork) (g : rng) (m lv : tensor) :
  Linear_call (mu_net n) (relu (encoder x)) = Ok m ->
  Linear_call (logvar_net n) (relu (encoder x)) = Ok lv ->
  forward x nl (n, g) =
    (z <- reparametrize m (exp_ lv) ;;
     assign (set_latent z) ;;;
     ret (decoder z nl)) (set_std (exp_ lv) (set_mu m n), g).
Proof.
  intros Hm Hlv.
  unfold forward, bind, self, lift, assign; cbv [fst snd].
  rewrite Hm.
  change (logvar_net (set_mu m n)) with (logvar_net n).
  rewrite Hlv. reflexivity.
Qed.

Lemma forward_inv (x : tensor) (nl : option nonlinearity)
    (n : VAENetwork) (g : rng) (out : tensor) (st' : net_state) :
  forward x nl (n, g) = (Ok out, st') ->
  exists m lv z,
    Linear_call (mu_net n) (relu (encoder x)) = Ok m
    /\ Linear_call (logvar_net n) (relu (encoder x)) = Ok lv
    /\ fst (reparametrize m (exp_ lv) (set_std (exp_ lv) (set_mu m n), g))
       = Ok z
    /\ fst st' = set_latent z (set_std (exp_ lv) (set_mu m n))
    /\ out = decoder z nl.
Proof.
  intros H.
  destruct (Linear_call (mu_net n) (relu (encoder x))) as [m|e] eqn:Hm.
  2:{ unfold forward, bind, self, lift in H; cbv [fst snd] in H.
      rewrite Hm in H. discriminate. }
  destruct (Linear_call (logvar_net n) (relu (encoder x))) as [lv|e] eqn:Hlv.
  2:{ unfold forward, bind, self, lift, assign in H; cbv [fst snd] in H.
      rewrite Hm in H.
      change (logvar_net (set_mu m n)) with (logvar_net n) in H.
      rewrite Hlv in H. discriminate. }
  rewrite (forward_heads x nl n g m lv Hm Hlv) in H.
  exists m, lv. unfold bind at 1 in H.
  pose proof (reparametrize_net m (exp_ lv)
                (set_std (exp_ lv) (set_mu m n), g)) as Hnet.
  destruct (reparametrize m (exp_ lv) (set_std (exp_ lv) (set_mu m n), g))
    as [[z|e] [n1 g1]]; [|discriminate].
  cbv [fst snd] in Hnet. subst n1.
  unfold bind, assign, ret in H; cbv [fst snd] in H.
  injection H as <- <-. exists z. repeat split; reflexivity.
Qed.

(** ** The training routine *)

Lemma routine_run (inputs targets Z : tensor)
    (vae_criterion : option criterion) (beta_kld : option R)
    (p : VAE) (g g' : rng) (n n' : VAENetwork)
    (outputs s m : tensor) (r_loss kl : R) :
  nets_vae p = Some n ->
  forward inputs None (n, g) = (Ok outputs, (n', g')) ->
  r_loss_of (default mse_loss vae_criterion) outputs inputs = Ok r_loss ->
  std n' = Some s -> mu n' = Some m ->
  kl_of s m = Ok kl ->
  routine inputs targets Z vae_criterion beta_kld (p, g) =
    (Ok tt, (routine_post p n' inputs outputs beta_kld r_loss kl, g')).
Proof.
  intros Hp Hf Hr Hs Hm Hk.
  unfold routine, bind, on_vae, lift, vae_attr, update_plugin; cbv [fst snd].
  rewrite Hp, Hf; cbv [fst snd]. rewrite Hr.
  cbn [nets_vae set_nets_vae]. rewrite Hs; cbv [fst snd].
  cbn [nets_vae set_nets_vae]. rewrite Hm; cbv [fst snd].
  rewrite Hk. reflexivity.
Qed.

Lemma routine_inv (inputs targets Z : tensor)
    (vae_criterion : option criterion) (beta_kld : option R)
    (p : VAE) (g : rng) (st' : plugin_state) :
  routine inputs targets Z vae_criterion beta_kld (p, g) = (Ok tt, st') ->
  exists n n' g' outputs s m r_loss kl,
    nets_vae p = Some n
    /\ forward inputs None (n, g) = (Ok outputs, (n', g'))
    /\ r_loss_of (default mse_loss vae_criterion) outputs inputs = Ok r_loss
    /\ std n' = Some s /\ mu n' = Some m
    /\ kl_of s m = Ok kl
    /\ st' = (routine_post p n' inputs outputs beta_kld r_loss kl, g').
Proof.
  intros H.
  unfold routine, bind, on_vae, lift, vae_attr, update_plugin in H;
    cbv [fst snd] in H.
  destruct (nets_vae p) as [n|] eqn:Hp; [|discriminate].
  destruct (forward inputs None (n, g)) as [[outputs|e] [n' g']] eqn:Hf;
    cbv [fst snd] in H; [|discriminate].
  destruct (r_loss_of (default mse_loss vae_criterion) outputs inputs)
    as [r_loss|e] eqn:Hr; [|discriminate].
  cbn [nets_vae set_nets_vae] in H.
  destruct (std n') as [s|] eqn:Hs; [|discriminate].
  cbv [fst snd] in H. cbn [nets_vae set_nets_vae] in H.
  destruct (mu n') as [m|] eqn:Hm; [|discriminate].
  cbv [fst snd] in H.
  destruct (kl_of s m) as [kl|e] eqn:Hk; [|discriminate].
  injection H as <-.
  exists n, n', g', outputs, s, m, r_loss, kl.
  repeat split; first [assumption | reflexivity].
Qed.

(** ** Construction *)

Lemma init_heads (dim_out dim_z : Z) (n : VAENetwork) :
  nn_Linear_sized -> built_with dim_out dim_z n ->
  wf_Linear (mu_net n) /\ wf_Linear (logvar_net n)
  /\ in_features (mu_net n) = Z.to_nat dim_out
  /\ in_features (logvar_net n) = Z.to_nat dim_out
  /\ out_features (mu_net n) = Z.to_nat dim_z
  /\ out_features (logvar_net n) = Z.to_nat dim_z.
Proof.
  intros Hc (g0 & g1 & n0 & Hinit & Hmu & Hlv).
  unfold VAENetwork_init, bind, ret in Hinit.
  destruct (nn_Linear (PyInt dim_out) (PyInt dim_z) g0)
    as [[L1|e] g] eqn:H1; [|discriminate].
  destruct (nn_Linear (PyInt dim_out) (PyInt dim_z) g)
    as [[L2|e] g2] eqn:H2; [|discriminate].
  injection Hinit as <- <-. cbn [mu_net logvar_net] in Hmu, Hlv.
  rewrite Hmu, Hlv.
  destruct (Hc _ _ _ _ _ H1) as (? & ? & ?).
  destruct (Hc _ _ _ _ _ H2) as (? & ? & ?).
  repeat (split; [assumption|]). assumption.
Qed.

Lemma forward_attrs (x : tensor) (nl : option nonlinearity)
    (n : VAENetwork) (g : rng) (m lv : tensor) :
  Linear_call (mu_net n) (relu (encoder x)) = Ok m ->
  Linear_call (logvar_net n) (relu (encoder x)) = Ok lv ->
  mu (fst (snd (forward x nl (n, g)))) = Some m
  /\ std (fst (snd (forward x nl (n, g)))) = Some (exp_ lv).
Proof.
  intros Hm Hlv. rewrite (forward_heads x nl n g m lv Hm Hlv).
  unfold bind.
  pose proof (reparametrize_net m (exp_ lv)
                (set_std (exp_ lv) (set_mu m n), g)) as Hnet.
  destruct (reparametrize m (exp_ lv) (set_std (exp_ lv) (set_mu m n), g))
    as [[z|e] [n1 g1]]; cbv [fst snd] in Hnet; subst n1.
  - unfold bind, assign, ret; cbv [fst snd]. split; reflexivity.
  - cbv [fst snd]. split; reflexivity.
Qed.

Lemma forward_total (dz : nat) (x : tensor) (nl : option nonlinearity)
    (n : VAENetwork) (g : rng) :
  (training n = true -> normal_sized) ->
  heads_accept dz n x ->
  exists out st', forward x nl (n, g) = (Ok out, st').
Proof.
  intros Hn (Hw1 & Hw2 & Ho1 & Ho2 & Hx1 & Hx2).
  pose proof (Linear_call_ok (mu_net n) (relu (encoder x))
                (tensor_map_width _ _ _ Hx1)) as Hm.
  pose proof (Linear_call_ok (logvar_net n) (relu (encoder x))
                (tensor_map_width _ _ _ Hx2)) as Hlv.
  rewrite (forward_heads x nl n g _ _ Hm Hlv).
  destruct (training n) eqn:Ht.
  - unfold bind at 1.
    rewrite (reparametrize_train dz).
    + unfold bind, assign, ret; cbv [fst snd]. eauto.
    + now apply Hn.
    + exact Ht.
    + rewrite <- Ho1. now apply Linear_out_width.
    + apply tensor_map_width. rewrite <- Ho2. now apply Linear_out_width.
    + unfold exp_, tensor_map. now rewrite !length_map.
  - unfold bind at 1. rewrite reparametrize_eval by exact Ht.
    unfold bind, assign, ret; cbv [fst snd]. eauto.
Qed.

(** ** Results on the forward pass *)

Lemma tensor_map_eq_iff (f h : R -> R) (t : tensor) :
  tensor_map f t = tensor_map h t <-> Forall (Forall (fun v => f v = h v)) t.
Proof.
  unfold tensor_map. induction t as [|r t IH]; simpl.
  - split; [constructor | reflexivity].
  - split.
    + intros [= Hr Ht]. constructor; [|now apply IH].
      clear -Hr. induction r as [|v r IHr]; simpl in *; [constructor|].
      injection Hr as Hv Hr. constructor; auto.
    + inversion 1 as [|? ? Hr Ht]; subst. f_equal; [|now apply IH].
      clear -Hr. induction Hr; simpl; [reflexivity | congruence].
Qed.

Lemma exp_half_eq (v : R) : exp v = exp (0.5 * v) <-> v = 0.
Proof.
  split.
  - intros H. apply exp_inv in H. lra.
  - intros ->. now rewrite Rmult_0_r.
Qed.

Lemma routine_post_results (p : VAE) (n' : VAENetwork)
    (inputs outputs : tensor) (beta_kld : option R) (r_loss kl : R) :
  results (routine_post p n' inputs outputs beta_kld r_loss kl) =
    <["ms_ssim" := ms_ssim inputs outputs]>
      (<["KL_divergence" := kl]> (results p)).
Proof. reflexivity. Qed.

Lemma routine_post_KL (p : VAE) (n' : VAENetwork)
    (inputs outputs : tensor) (beta_kld : option R) (r_loss kl : R) :
  results (routine_post p n' inputs outputs beta_kld r_loss kl)
    !! "KL_divergence" = Some kl.
Proof.
  rewrite routine_post_results.
  rewrite lookup_insert_ne by discriminate. apply lookup_insert_eq.
Qed.

(** C1. In the forward pass the standard deviation is the elementwise
    exponential of the raw output of the log-variance head,
    [std = exp(logvar_net(relu(encoder(x))))]: that tensor is what the
    sampler receives and what is recorded in [std], which the routine reads
    for the loss; it is [exp(0.5 * logvar)] only where the head answers
    zero everywhere. *)
Theorem forward_std_is_exp_of_logvar (x : tensor)
    (nl : option nonlinearity) (n : VAENetwork) (g : rng) (m lv : tensor) :
  Linear_call (mu_net n) (relu (encoder x)) = Ok m ->
  Linear_call (logvar_net n) (relu (encoder x)) = Ok lv ->
  std (fst (snd (forward x nl (n, g)))) = Some (tensor_map exp lv)
  /\ forward x nl (n, g) =
       (z <- reparametrize m (tensor_map exp lv) ;;
        assign (set_latent z) ;;;
        ret (decoder z nl)) (set_std (tensor_map exp lv) (set_mu m n), g)
  /\ (tensor_map exp lv = tensor_map (fun v => exp (0.5 * v)) lv
       <-> Forall (Forall (fun v => v = 0)) lv).
Proof.
  intros Hm Hlv. split; [|split].
  - apply (forward_attrs x nl n g m lv Hm Hlv).
  - apply (forward_heads x nl n g m lv Hm Hlv).
  - rewrite tensor_map_eq_iff. split; intros H.
    + eapply Forall_impl; [exact H|]. intros r Hr.
      eapply Forall_impl; [exact Hr|]. intros v. apply exp_half_eq.
    + eapply Forall_impl; [exact H|]. intros r Hr.
      eapply Forall_impl; [exact Hr|]. intros v. apply exp_half_eq.
Qed.

(** C4. When the module is not in training mode the sampler returns the
    mean unchanged and draws nothing, so a forward pass that returns gives
    [decoder(mu)] for the recorded mean; it returns whenever both heads
    accept the encoder's features. *)
Theorem forward_eval_decodes_mean (x : tensor) (nl : option nonlinearity)
    (n : VAENetwork) (g : rng) :
  training n = false ->
  (forall m s, reparametrize m s (n, g) = (Ok m, (n, g)))
  /\ (forall out st',
        forward x nl (n, g) = (Ok out, st') ->
        exists m, mu (fst st') = Some m /\ latent (fst st') = Some m
                  /\ out = decoder m nl /\ snd st' = g)
  /\ (has_width (in_features (mu_net n)) (encoder x) ->
      has_width (in_features (logvar_net n)) (encoder x) ->
      exists out st', forward x nl (n, g) = (Ok out, st')).
Proof.
  intros Ht. split; [|split].
  - intros m s. now apply reparametrize_eval.
  - intros out st' H.
    destruct (forward_inv x nl n g out st' H)
      as (m & lv & z & Hm & Hlv & _).
    rewrite (forward_heads x nl n g m lv Hm Hlv) in H.
    unfold bind at 1 in H. rewrite reparametrize_eval in H by exact Ht.
    unfold bind, assign, ret in H; cbv [fst snd] in H.
    injection H as <- <-. exists m. repeat split; reflexivity.
  - intros Hx1 Hx2.
    pose proof (Linear_call_ok (mu_net n) (relu (encoder x))
                  (tensor_map_width _ _ _ Hx1)) as Hm.
    pose proof (Linear_call_ok (logvar_net n) (relu (encoder x))
                  (tensor_map_width _ _ _ Hx2)) as Hlv.
    rewrite (forward_heads x nl n g _ _ Hm Hlv).
    unfold bind at 1. rewrite reparametrize_eval by exact Ht.
    unfold bind, assign, ret; cbv [fst snd]. eauto.
Qed.

(** C7. For a module built with [dim_out] and [dim_z], the latent head
    turns the rectified encoder features into two tensors, the mean from
    [mu_net] and the log-variance preactivation from [logvar_net], each
    with one [dim_z]-vector per example; the forward pass records the
    first as [mu] and the exponential of the second as [std], and [encode]
    returns the first. *)
Theorem latent_head_two_vectors (dim_out dim_z : Z) (x : tensor)
    (nl : option nonlinearity) (n : VAENetwork) (g : rng) :
  nn_Linear_sized -> built_with dim_out dim_z n ->
  has_width (Z.to_nat dim_out) (encoder x) ->
  exists m lv,
    Linear_call (mu_net n) (relu (encoder x)) = Ok m
    /\ Linear_call (logvar_net n) (relu (encoder x)) = Ok lv
    /\ has_width (Z.to_nat dim_z) m /\ has_width (Z.to_nat dim_z) lv
    /\ length m = length (encoder x) /\ length lv = length (encoder x)
    /\ mu (fst (snd (forward x nl (n, g)))) = Some m
    /\ std (fst (snd (forward x nl (n, g)))) = Some (exp_ lv)
    /\ fst (encode x (n, g)) = Ok m.
Proof.
  intros Hc Hb Hx.
  destruct (init_heads dim_out dim_z n Hc Hb)
    as (Hw1 & Hw2 & Hi1 & Hi2 & Ho1 & Ho2).
  assert (Hm : Linear_call (mu_net n) (relu (encoder x))
               = Ok (map (Linear_row (mu_net n)) (relu (encoder x)))).
  { apply Linear_call_ok, tensor_map_width. now rewrite Hi1. }
  assert (Hlv : Linear_call (logvar_net n) (relu (encoder x))
                = Ok (map (Linear_row (logvar_net n)) (relu (encoder x)))).
  { apply Linear_call_ok, tensor_map_width. now rewrite Hi2. }
  eexists _, _. split; [exact Hm|]. split; [exact Hlv|].
  split; [rewrite <- Ho1; now apply Linear_out_width|].
  split; [rewrite <- Ho2; now apply Linear_out_width|].
  split; [unfold relu, tensor_map; now rewrite !length_map|].
  split; [unfold relu, tensor_map; now rewrite !length_map|].
  destruct (forward_attrs x nl n g _ _ Hm Hlv) as [Hmu Hstd].
  split; [exact Hmu|]. split; [exact Hstd|].
  unfold encode, bind, self, lift; cbv [fst snd]. now rewrite Hm.
Qed.

(** ** The KL term *)

Lemma kl_rows_pointwise (r s : list R) :
  map (fun x => x - 1)
      (zip_with Rminus
         (zip_with Rplus (map (fun x => x ^ 2) r) (map (fun x => x ^ 2) s))
         (map (Rmult 2) (map ln r)))
  = zip_with kl_elem r s.
Proof.
  revert s; induction r as [|a r IH]; intros [|b s]; simpl; try reflexivity.
  f_equal. apply IH.
Qed.

Lemma kl_tensor_pointwise (std mu : tensor) :
  minus_const
    (zip_with (zip_with Rminus)
       (zip_with (zip_with Rplus) (pow2 std) (pow2 mu))
       (scale 2 (log std))) 1
  = zip_with (zip_with kl_elem) std mu.
Proof.
  unfold minus_const, pow2, scale, log, tensor_map.
  revert mu; induction std as [|r std IH]; intros [|s mu]; simpl;
    try reflexivity.
  f_equal; [apply kl_rows_pointwise | apply IH].
Qed.

Lemma kl_of_pointwise (std mu : tensor) :
  same_shape std mu ->
  kl_of std mu
  = Ok (0.5 * mean (sum1 (zip_with (zip_with kl_elem) std mu))).
Proof.
  intros H. unfold kl_of, add, sub.
  assert (H1 : same_shape (pow2 std) (pow2 mu)).
  { eapply same_shape_trans; [apply tensor_map_shape|].
    eapply same_shape_trans; [exact H|].
    apply same_shape_sym, tensor_map_shape. }
  rewrite (tensor_map2_ok _ _ _ H1).
  rewrite tensor_map2_ok.
  - now rewrite kl_tensor_pointwise.
  - eapply same_shape_trans; [apply zip_with_shape_l, H1|].
    eapply same_shape_trans; [apply tensor_map_shape|].
    apply same_shape_sym.
    eapply same_shape_trans; apply tensor_map_shape.
Qed.

Lemma kl_of_inv (std mu : tensor) (kl : R) :
  kl_of std mu = Ok kl -> same_shape std mu.
Proof.
  unfold kl_of, add. intros H.
  destruct (tensor_map2 Rplus (pow2 std) (pow2 mu)) as [s1|e] eqn:E;
    [|discriminate].
  apply tensor_map2_inv in E. destruct E as [E _].
  eapply same_shape_trans; [apply same_shape_sym, tensor_map_shape|].
  eapply same_shape_trans; [exact E | apply tensor_map_shape].
Qed.

Lemma rsum_scale (c : R) (v : list R) : rsum (map (Rmult c) v) = c * rsum v.
Proof. induction v as [|a v IH]; simpl; [lra | rewrite IH; lra]. Qed.

Lemma mean_scale (c : R) (v : list R) : mean (map (Rmult c) v) = c * mean v.
Proof.
  unfold mean. rewrite rsum_scale, length_map. unfold Rdiv. lra.
Qed.

Lemma map_zip_with_rows (h : list R -> R) (f : R -> R -> R)
    (a b : tensor) :
  map h (zip_with (zip_with f) a b) = zip_with (fun r s => h (zip_with f r s)) a b.
Proof.
  revert b; induction a as [|r a IH]; intros [|s b]; simpl; try reflexivity.
  f_equal. apply IH.
Qed.

Lemma kl_spec_code (std mu : tensor) :
  0.5 * mean (sum1 (zip_with (zip_with kl_elem) std mu)) = kl_spec std mu.
Proof.
  unfold kl_spec, sum1. rewrite <- mean_scale, map_map.
  now rewrite (map_zip_with_rows (fun r => 0.5 * rsum r)).
Qed.

(** C2. The KL term the routine computes is the mean over the batch of
    half the sum over the latent dimensions of
    [std^2 + mean^2 - 2*log(std) - 1], for the [mu] and [std] that the
    forward pass of the same call recorded. *)
Theorem routine_kl_term :
  (forall std mu, same_shape std mu -> kl_of std mu = Ok (kl_spec std mu))
  /\ (forall inputs targets Z vae_criterion beta_kld p g st',
        routine inputs targets Z vae_criterion beta_kld (p, g)
          = (Ok tt, st') ->
        exists n n' outputs s m,
          nets_vae p = Some n
          /\ forward inputs None (n, g) = (Ok outputs, (n', snd st'))
          /\ nets_vae (fst st') = Some n'
          /\ std n' = Some s /\ mu n' = Some m
          /\ kl_of s m = Ok (kl_spec s m)
          /\ results (fst st') !! "KL_divergence" = Some (kl_spec s m)).
Proof.
  assert (Hkl : forall std mu,
             same_shape std mu -> kl_of std mu = Ok (kl_spec std mu)).
  { intros std mu H. rewrite (kl_of_pointwise _ _ H). f_equal.
    apply kl_spec_code. }
  split; [exact Hkl|].
  intros inputs targets Z vae_criterion beta_kld p g st' H.
  destruct (routine_inv _ _ _ _ _ _ _ _ H)
    as (n & n' & g' & outputs & s & m & r & kl
        & Hp & Hf & Hr & Hs & Hm & Hk & ->).
  pose proof (Hkl s m (kl_of_inv s m kl Hk)) as Hk'.
  assert (kl = kl_spec s m) by congruence. subst kl.
  exists n, n', outputs, s, m. cbv [fst snd].
  repeat split; try assumption. apply routine_post_KL.
Qed.

(** The routine returns whenever the heads accept the encoder's features
    and the criterion accepts the reconstruction. *)
Lemma routine_total (dz : nat) (inputs targets Z : tensor)
    (vae_criterion : option criterion) (beta_kld : option R)
    (p : VAE) (g : rng) (n : VAENetwork) :
  nets_vae p = Some n ->
  (training n = true -> normal_sized) ->
  heads_accept dz n inputs ->
  (forall out, exists c,
      default mse_loss vae_criterion out inputs false = Ok c) ->
  exists st',
    routine inputs targets Z vae_criterion beta_kld (p, g) = (Ok tt, st').
Proof.
  intros Hp Hn Hacc Hcrit.
  destruct (forward_total dz inputs None n g Hn Hacc)
    as (out & [n' g'] & Hf).
  destruct (forward_inv _ _ _ _ _ _ Hf)
    as (m & lv & z & Hm & Hlv & _ & Hst & _).
  cbv [fst] in Hst.
  destruct Hacc as (Hw1 & Hw2 & Ho1 & Ho2 & _ & _).
  apply Linear_call_inv in Hm, Hlv.
  destruct Hm as [_ ->]. destruct Hlv as [_ ->].
  destruct (Hcrit out) as [c Hc].
  eexists. eapply routine_run.
  - exact Hp.
  - exact Hf.
  - unfold r_loss_of. rewrite Hc. reflexivity.
  - rewrite Hst. reflexivity.
  - rewrite Hst. reflexivity.
  - apply kl_of_pointwise.
    eapply same_shape_trans; [apply tensor_map_shape|].
    apply (same_shape_width dz).
    + rewrite <- Ho2. now apply Linear_out_width.
    + rewrite <- Ho1. now apply Linear_out_width.
    + now rewrite !length_map.
Qed.

(** ** The loss and the metrics *)

Lemma routine_post_loss (p : VAE) (n' : VAENetwork)
    (inputs outputs : tensor) (beta_kld : option R) (r_loss kl : R) :
  losses (routine_post p n' inputs outputs beta_kld r_loss kl) !! "vae"
  = Some (r_loss + default 1 beta_kld * kl).
Proof. unfold routine_post. cbn [losses update_results set_loss]. apply lookup_insert_eq. Qed.


Lemma mse_loss_summed (input target : tensor) :
  same_shape input target ->
  mse_loss input target false
  = Ok (rsum (sum1 (zip_with (zip_with (fun u v => (u - v) ^ 2))
                      input target))).
Proof.
  intros H. unfold mse_loss, sub. rewrite (tensor_map2_ok _ _ _ H).
  do 3 f_equal. unfold pow2, tensor_map. clear H.
  revert target; induction input as [|r a IH]; intros [|s b]; simpl;
    try reflexivity.
  f_equal; [|apply IH].
  clear. revert s; induction r as [|u r IH]; intros [|v s]; simpl;
    try reflexivity.
  f_equal. apply IH.
Qed.

(** C3. The loss the routine stores is the reconstruction term plus
    [beta_kld] times the KL term, for every [beta_kld] (in particular the
    non-negative ones); a call that leaves [beta_kld] out runs with 1. *)
Theorem routine_loss_is_elbo (inputs targets Z : tensor)
    (vae_criterion : option criterion) (p : VAE) (g : rng) :
  (forall beta_kld st',
      routine inputs targets Z vae_criterion (Some beta_kld) (p, g)
        = (Ok tt, st') ->
      exists n n' outputs s m r_loss kl,
        nets_vae p = Some n
        /\ forward inputs None (n, g) = (Ok outputs, (n', snd st'))
        /\ std n' = Some s /\ mu n' = Some m
        /\ r_loss_of (default mse_loss vae_criterion) outputs inputs
           = Ok r_loss
        /\ kl_of s m = Ok kl
        /\ losses (fst st') !! "vae" = Some (r_loss + beta_kld * kl))
  /\ routine inputs targets Z vae_criterion None (p, g)
     = routine inputs targets Z vae_criterion (Some 1) (p, g).
Proof.
  split; [|reflexivity].
  intros beta_kld st' H.
  destruct (routine_inv _ _ _ _ _ _ _ _ H)
    as (n & n' & g' & outputs & s & m & r & kl
        & Hp & Hf & Hr & Hs & Hm & Hk & ->).
  exists n, n', outputs, s, m, r, kl. cbv [fst snd].
  repeat split; try assumption. apply routine_post_loss.
Qed.


(** C9, as the code has it. A routine that returns writes exactly two
    metrics into [results]: [KL_divergence], the KL term, and [ms_ssim],
    the structural similarity of (input, reconstruction); every other key
    of [results] is left as it was, and the reconstruction loss is only
    part of the loss stored under [losses.vae]. *)
Theorem routine_metrics (inputs targets Z : tensor)
    (vae_criterion : option criterion) (beta_kld : option R)
    (p : VAE) (g : rng) (st' : plugin_state) :
  routine inputs targets Z vae_criterion beta_kld (p, g) = (Ok tt, st') ->
  exists n n' outputs s m kl,
    nets_vae p = Some n
    /\ forward inputs None (n, g) = (Ok outputs, (n', snd st'))
    /\ std n' = Some s /\ mu n' = Some m /\ kl_of s m = Ok kl
    /\ results (fst st')
       = <["ms_ssim" := ms_ssim inputs outputs]>
           (<["KL_divergence" := kl]> (results p))
    /\ dom (results (fst st'))
       = {["KL_divergence"; "ms_ssim"]} ∪ dom (results p)
    /\ (forall k, k <> "KL_divergence" -> k <> "ms_ssim" ->
                  results (fst st') !! k = results p !! k).
Proof.
  intros H.
  destruct (routine_inv _ _ _ _ _ _ _ _ H)
    as (n & n' & g' & outputs & s & m & r & kl
        & Hp & Hf & Hr & Hs & Hm & Hk & ->).
  exists n, n', outputs, s, m, kl. cbv [fst snd].
  rewrite routine_post_results.
  repeat (split; [assumption|]). split; [reflexivity|]. split.
  - rewrite !dom_insert_L. apply set_eq. intros k.
    rewrite !elem_of_union, !elem_of_singleton.
    split; [intros [?|[?|?]] | intros [[?|?]|?]]; auto.
  - intros k H1 H2. now rewrite !lookup_insert_ne by congruence.
Qed.

(** ** Building the model *)

(** C8, as the code has it. [build] checks nothing itself: an argument
    left out takes its default (64 for [dim_z], 1024 for
    [dim_encoder_out]), the two values go unchanged to the constructor of
    the two heads, an exception leaving [build] is one that a collaborator
    raised, and when the collaborators return so does [build]. *)
Theorem build_checks_nothing :
  (forall st, build None None st
              = build (Some (PyInt 64)) (Some (PyInt 1024)) st)
  /\ (forall dim_z dim_encoder_out st e st',
        build dim_z dim_encoder_out st = (Raise e, st') ->
        encoder_build = Raise e \/ decoder_build = Raise e
        \/ add_noise "Z" "normal" (default (PyInt 64) dim_z) = Raise e
        \/ exists g, fst (nn_Linear (default (PyInt 1024) dim_encoder_out)
                            (default (PyInt 64) dim_z) g) = Raise e)
  /\ (forall dim_z dim_encoder_out p g L1 g1 L2 g2,
        encoder_build = Ok tt -> decoder_build = Ok tt ->
        add_noise "Z" "normal" (default (PyInt 64) dim_z) = Ok tt ->
        nn_Linear (default (PyInt 1024) dim_encoder_out)
                  (default (PyInt 64) dim_z) g = (Ok L1, g1) ->
        nn_Linear (default (PyInt 1024) dim_encoder_out)
                  (default (PyInt 64) dim_z) g1 = (Ok L2, g2) ->
        build dim_z dim_encoder_out (p, g)
        = (Ok tt,
           (set_nets_vae (mkVAENetwork L1 L2 None None None None true) p,
            g2))).
Proof.
  split; [reflexivity|]. split.
  - intros dim_z dim_encoder_out [p g] e st'.
    unfold build, VAENetwork_init, on_rng, bind, lift, update_plugin, ret;
      cbv [fst snd].
    destruct encoder_build as [[]|e1]; [|intros [= -> _]; auto].
    destruct decoder_build as [[]|e2]; [|intros [= -> _]; auto].
    destruct (add_noise "Z" "normal" (default (PyInt 64) dim_z))
      as [[]|e3]; [|intros [= -> _]; auto].
    destruct (nn_Linear (default (PyInt 1024) dim_encoder_out)
                (default (PyInt 64) dim_z) g) as [[L1|e4] g1] eqn:E1.
    2:{ intros [= -> _]. do 3 right. exists g. now rewrite E1. }
    destruct (nn_Linear (default (PyInt 1024) dim_encoder_out)
                (default (PyInt 64) dim_z) g1) as [[L2|e5] g2] eqn:E2.
    2:{ intros [= -> _]. do 3 right. exists g1. now rewrite E2. }
    discriminate.
  - intros dim_z dim_encoder_out p g L1 g1 L2 g2 He Hd Ha H1 H2.
    unfold build, VAENetwork_init, on_rng, bind, lift, update_plugin, ret;
      cbv [fst snd].
    rewrite He, Hd, Ha, H1, H2. reflexivity.
Qed.

(** * Further properties of the module *)

Lemma Linear_call_raise (L : Linear) (x : tensor) :
  ~ has_width (in_features L) x -> Linear_call L x = Raise "RuntimeError".
Proof.
  intros H. unfold Linear_call.
  destruct (forallb _ x) eqn:E; [|reflexivity].
  exfalso. apply H. unfold has_width. apply Forall_forall. intros r Hr.
  rewrite forallb_forall in E. apply Nat.eqb_eq, E.
  now apply list_elem_of_In.
Qed.

Lemma relu_width (d : nat) (t : tensor) :
  has_width d (relu t) <-> has_width d t.
Proof.
  unfold relu, tensor_map, has_width. rewrite Forall_map.
  split; intros H; (eapply Forall_impl; [exact H|]); intros r; simpl;
    now rewrite length_map.
Qed.

Lemma forward_raise_mu (x : tensor) (nl : option nonlinearity)
    (n : VAENetwork) (g : rng) (e : exn) :
  Linear_call (mu_net n) (relu (encoder x)) = Raise e ->
  forward x nl (n, g) = (Raise e, (n, g)).
Proof.
  intros H. unfold forward, bind, self, lift; cbv [fst snd].
  now rewrite H.
Qed.

Lemma forward_raise_logvar (x : tensor) (nl : option nonlinearity)
    (n : VAENetwork) (g : rng) (m : tensor) (e : exn) :
  Linear_call (mu_net n) (relu (encoder x)) = Ok m ->
  Linear_call (logvar_net n) (relu (encoder x)) = Raise e ->
  forward x nl (n, g) = (Raise e, (set_mu m n, g)).
Proof.
  intros Hm Hlv. unfold forward, bind, self, lift, assign; cbv [fst snd].
  rewrite Hm. change (logvar_net (set_mu m n)) with (logvar_net n).
  now rewrite Hlv.
Qed.

(** Every outcome of a forward pass leaves the module as one of three
    updates of the module it started from. *)
Lemma forward_module_cases (x : tensor) (nl : option nonlinearity)
    (n : VAENetwork) (g : rng) :
  let n' := fst (snd (forward x nl (n, g))) in
  n' = n
  \/ (exists m, n' = set_mu m n)
  \/ (exists m s, n' = set_std s (set_mu m n))
  \/ (exists m s z, n' = set_latent z (set_std s (set_mu m n))).
Proof.
  cbv zeta.
  destruct (Linear_call (mu_net n) (relu (encoder x))) as [m|e] eqn:Hm.
  2:{ rewrite (forward_raise_mu x nl n g e Hm). left. reflexivity. }
  destruct (Linear_call (logvar_net n) (relu (encoder x))) as [lv|e] eqn:Hlv.
  2:{ rewrite (forward_raise_logvar x nl n g m e Hm Hlv).
      right. left. now exists m. }
  rewrite (forward_heads x nl n g m lv Hm Hlv). unfold bind.
  pose proof (reparametrize_net m (exp_ lv)
                (set_std (exp_ lv) (set_mu m n), g)) as Hnet.
  destruct (reparametrize m (exp_ lv) (set_std (exp_ lv) (set_mu m n), g))
    as [[z|e] [n1 g1]]; cbv [fst snd] in Hnet; subst n1.
  - unfold assign, ret; cbv [fst snd]. do 3 right. now exists m, (exp_ lv), z.
  - cbv [fst snd]. right. right. left. now exists m, (exp_ lv).
Qed.

(** X1. In training mode, for a mean and a std of the same shape and a
    generator that honours the size asked for, the sampler returns
    [mu + std * esp] entry by entry, where [esp] is one draw of the size of
    [std]; the generator has advanced by that draw.  In either mode, and
    whatever the outcome, the sampler assigns nothing in the module. *)
Theorem reparametrize_training_sample (d : nat) (m s : tensor)
    (n : VAENetwork) (g : rng) :
  normal_sized -> training n = true ->
  has_width d m -> has_width d s -> length m = length s ->
  let esp := fst (normal_ (size s) g) in
  let z := zip_with (zip_with Rplus) m (zip_with (zip_with Rmult) s esp) in
  reparametrize m s (n, g) = (Ok z, (n, snd (normal_ (size s) g)))
  /\ same_shape z m /\ same_shape esp s
  /\ (forall m' s' st, fst (snd (reparametrize m' s' st)) = fst st).
Proof.
  intros Hn Ht Hm Hs Hl. cbv zeta.
  destruct (Hn (size s) g) as [Hel Hew].
  assert (Hse : same_shape s (fst (normal_ (size s) g)))
    by (eapply sized_same_shape; eauto).
  split; [now apply (reparametrize_train d)|].
  split; [|split].
  - apply zip_with_shape_l.
    eapply same_shape_trans; [now apply (same_shape_width d m s)|].
    apply same_shape_sym, zip_with_shape_l, Hse.
  - now apply same_shape_sym.
  - intros m' s' st. apply reparametrize_net.
Qed.

(** X2. In training mode a forward pass on features that both heads
    accept returns [decoder(mu + std * esp)] and records [mu], [std] and
    that latent, with [mu] and [std] the heads' answers on the rectified
    features and [esp] one draw of the size of [std]. *)
Theorem forward_training_pass (dz : nat) (x : tensor)
    (nl : option nonlinearity) (n : VAENetwork) (g : rng) :
  normal_sized -> training n = true -> heads_accept dz n x ->
  let m := map (Linear_row (mu_net n)) (relu (encoder x)) in
  let s := exp_ (map (Linear_row (logvar_net n)) (relu (encoder x))) in
  let esp := fst (normal_ (size s) g) in
  let z := zip_with (zip_with Rplus) m (zip_with (zip_with Rmult) s esp) in
  forward x nl (n, g)
  = (Ok (decoder z nl),
     (set_latent z (set_std s (set_mu m n)), snd (normal_ (size s) g))).
Proof.
  intros Hn Ht (Hw1 & Hw2 & Ho1 & Ho2 & Hx1 & Hx2). cbv zeta.
  pose proof (Linear_call_ok (mu_net n) (relu (encoder x))
                (tensor_map_width _ _ _ Hx1)) as Hm.
  pose proof (Linear_call_ok (logvar_net n) (relu (encoder x))
                (tensor_map_width _ _ _ Hx2)) as Hlv.
  rewrite (forward_heads x nl n g _ _ Hm Hlv).
  unfold bind at 1. rewrite (reparametrize_train dz).
  - reflexivity.
  - exact Hn.
  - exact Ht.
  - rewrite <- Ho1. now apply Linear_out_width.
  - apply tensor_map_width. rewrite <- Ho2. now apply Linear_out_width.
  - unfold exp_, tensor_map. now rewrite !length_map.
Qed.

(** X3. Whatever its outcome, a forward pass leaves the two heads, the
    training flag and the attribute [logvar] of the module as they were;
    [logvar], which the constructor sets to [None], is therefore still
    [None] after a pass over a freshly constructed module. *)
Theorem forward_keeps_heads (x : tensor) (nl : option nonlinearity)
    (n : VAENetwork) (g : rng) :
  let n' := fst (snd (forward x nl (n, g))) in
  mu_net n' = mu_net n /\ logvar_net n' = logvar_net n
  /\ training n' = training n /\ logvar n' = logvar n
  /\ (forall dim_out dim_z g0 g1,
         VAENetwork_init dim_out dim_z g0 = (Ok n, g1) -> logvar n' = None).
Proof.
  cbv zeta.
  assert (H : let n' := fst (snd (forward x nl (n, g))) in
              mu_net n' = mu_net n /\ logvar_net n' = logvar_net n
              /\ training n' = training n /\ logvar n' = logvar n).
  { destruct (forward_module_cases x nl n g)
      as [E|[(m & E)|[(m & s & E)|(m & s & z & E)]]];
      cbv zeta; rewrite E; repeat split. }
  cbv zeta in H. destruct H as (H1 & H2 & H3 & H4).
  repeat (split; [assumption|]).
  intros dim_out dim_z g0 g1 Hinit. rewrite H4.
  unfold VAENetwork_init, bind, ret in Hinit.
  destruct (nn_Linear dim_out dim_z g0) as [[L1|e] g2]; [|discriminate].
  destruct (nn_Linear dim_out dim_z g2) as [[L2|e] g3]; [|discriminate].
  injection Hinit as <- _. reflexivity.
Qed.

(** X4. A forward pass fails on the first head that does not accept the
    features.  When the mean head refuses them nothing is recorded and no
    noise is drawn; when only the log-variance head refuses them the mean
    has already been recorded, while [std] and [latent] keep their former
    values. *)
Theorem forward_shape_errors (x : tensor) (nl : option nonlinearity)
    (n : VAENetwork) (g : rng) :
  (~ has_width (in_features (mu_net n)) (encoder x) ->
   forward x nl (n, g) = (Raise "RuntimeError", (n, g)))
  /\ (has_width (in_features (mu_net n)) (encoder x) ->
      ~ has_width (in_features (logvar_net n)) (encoder x) ->
      let n' := set_mu (map (Linear_row (mu_net n)) (relu (encoder x))) n in
      forward x nl (n, g) = (Raise "RuntimeError", (n', g))
      /\ std n' = std n /\ latent n' = latent n).
Proof.
  split.
  - intros H. apply forward_raise_mu, Linear_call_raise.
    now rewrite relu_width.
  - intros H1 H2. cbv zeta. split; [|split; reflexivity].
    apply forward_raise_logvar.
    + apply Linear_call_ok. now rewrite relu_width.
    + apply Linear_call_raise. now rewrite relu_width.
Qed.

(** X5. In inference mode a forward pass is idempotent: repeated on
    the same input from the state the first pass left, it returns the same
    reconstruction and leaves the same state. *)
Theorem forward_eval_idempotent (x : tensor) (nl : option nonlinearity)
    (n : VAENetwork) (g : rng) (out : tensor) (st' : net_state) :
  training n = false ->
  forward x nl (n, g) = (Ok out, st') ->
  forward x nl st' = (Ok out, st').
Proof.
  intros Ht H.
  destruct (forward_inv x nl n g out st' H)
    as (m & lv & z & Hm & Hlv & _).
  rewrite (forward_heads x nl n g m lv Hm Hlv) in H.
  unfold bind at 1 in H. rewrite reparametrize_eval in H by exact Ht.
  unfold bind, assign, ret in H; cbv [fst snd] in H.
  injection H as <- <-.
  rewrite (forward_heads x nl
             (set_latent m (set_std (exp_ lv) (set_mu m n))) g m lv Hm Hlv).
  unfold bind at 1. rewrite reparametrize_eval by exact Ht.
  unfold bind, assign, ret; cbv [fst snd]. reflexivity.
Qed.

Lemma reparametrize_flag (m s : tensor) (n1 n2 : VAENetwork) (g : rng) :
  training n1 = training n2 ->
  exists r g',
    reparametrize m s (n1, g) = (r, (n1, g'))
    /\ reparametrize m s (n2, g) = (r, (n2, g')).
Proof.
  unfold reparametrize, bind, self, draw_normal, lift, ret; cbv [fst snd].
  intros <-. destruct (training n1); [|eauto].
  destruct (normal_ (size s) g) as [e g'].
  destruct (mul s e) as [se|er]; [|eauto].
  destruct (add m se); eauto.
Qed.

(** X6. Nothing is cached between passes: two modules with the same heads
    and the same training flag give, on the same input and generator, the
    same outcome, the same generator afterwards and, when the pass
    returns, the same recorded [mu], [std] and [latent], whatever either
    had recorded before. *)
Theorem forward_ignores_recorded (x : tensor) (nl : option nonlinearity)
    (n1 n2 : VAENetwork) (g : rng) :
  mu_net n1 = mu_net n2 -> logvar_net n1 = logvar_net n2 ->
  training n1 = training n2 ->
  let r1 := forward x nl (n1, g) in
  let r2 := forward x nl (n2, g) in
  fst r1 = fst r2 /\ snd (snd r1) = snd (snd r2)
  /\ (forall out, fst r1 = Ok out ->
        mu (fst (snd r1)) = mu (fst (snd r2))
        /\ std (fst (snd r1)) = std (fst (snd r2))
        /\ latent (fst (snd r1)) = latent (fst (snd r2))).
Proof.
  intros H1 H2 H3. cbv zeta.
  destruct (Linear_call (mu_net n1) (relu (encoder x))) as [m|e] eqn:Hm.
  2:{ rewrite (forward_raise_mu x nl n1 g e Hm).
      rewrite H1 in Hm. rewrite (forward_raise_mu x nl n2 g e Hm).
      repeat split; discriminate. }
  destruct (Linear_call (logvar_net n1) (relu (encoder x)))
    as [lv|e] eqn:Hlv.
  2:{ rewrite (forward_raise_logvar x nl n1 g m e Hm Hlv).
      rewrite H1 in Hm. rewrite H2 in Hlv.
      rewrite (forward_raise_logvar x nl n2 g m e Hm Hlv).
      repeat split; discriminate. }
  rewrite (forward_heads x nl n1 g m lv Hm Hlv).
  rewrite H1 in Hm. rewrite H2 in Hlv.
  rewrite (forward_heads x nl n2 g m lv Hm Hlv).
  destruct (reparametrize_flag m (exp_ lv)
              (set_std (exp_ lv) (set_mu m n1))
              (set_std (exp_ lv) (set_mu m n2)) g H3)
    as (r & g' & E1 & E2).
  unfold bind. rewrite E1, E2.
  destruct r as [z|er]; unfold assign, ret; cbv [fst snd];
    repeat split; discriminate.
Qed.

(** X7. [encode] assigns nothing and draws nothing, and fails exactly
    when the mean head refuses the features; in inference mode a forward
    pass that returns gives the decoder applied to what [encode] returns
    on the same input. *)
Theorem forward_eval_is_decode_of_encode (x : tensor)
    (nl : option nonlinearity) (n : VAENetwork) (g : rng) :
  snd (encode x (n, g)) = (n, g)
  /\ (has_width (in_features (mu_net n)) (encoder x) <->
      exists m, fst (encode x (n, g)) = Ok m)
  /\ (training n = false ->
      forall out st', forward x nl (n, g) = (Ok out, st') ->
        exists m, encode x (n, g) = (Ok m, (n, g)) /\ out = decoder m nl).
Proof.
  split; [|split].
  - unfold encode, bind, self, lift; cbv [fst snd].
    destruct (Linear_call (mu_net n) (relu (encoder x))); reflexivity.
  - unfold encode, bind, self, lift; cbv [fst snd]. split.
    + intros H. rewrite Linear_call_ok by now rewrite relu_width.
      eauto.
    + intros [m Hm].
      destruct (Linear_call (mu_net n) (relu (encoder x))) as [m'|e] eqn:E;
        [|discriminate].
      apply Linear_call_inv in E. destruct E as [E _].
      now rewrite relu_width in E.
  - intros Ht out st' H.
    destruct (forward_inv x nl n g out st' H)
      as (m & lv & z & Hm & Hlv & _).
    rewrite (forward_heads x nl n g m lv Hm Hlv) in H.
    unfold bind at 1 in H. rewrite reparametrize_eval in H by exact Ht.
    unfold bind, assign, ret in H; cbv [fst snd] in H.
    injection H as <- <-. exists m. split; [|reflexivity].
    unfold encode, bind, self, lift; cbv [fst snd]. now rewrite Hm.
Qed.

(** X8. A module built with [dim_out] and [dim_z] accepts exactly the
    inputs whose encoder features have [dim_out] entries per example: in
    inference mode the forward pass returns for those, and fails with
    nothing recorded for all others. *)
Theorem built_module_accepts_iff (dim_out dim_z : Z) (x : tensor)
    (nl : option nonlinearity) (n : VAENetwork) (g : rng) :
  nn_Linear_sized -> built_with dim_out dim_z n -> training n = false ->
  ((exists out st', forward x nl (n, g) = (Ok out, st'))
   <-> has_width (Z.to_nat dim_out) (encoder x))
  /\ (~ has_width (Z.to_nat dim_out) (encoder x) ->
      forward x nl (n, g) = (Raise "RuntimeError", (n, g))).
Proof.
  intros Hc Hb Ht.
  destruct (init_heads dim_out dim_z n Hc Hb)
    as (Hw1 & Hw2 & Hi1 & Hi2 & Ho1 & Ho2).
  split; [split|].
  - intros (out & st' & H).
    destruct (forward_inv x nl n g out st' H) as (m & lv & z & Hm & _).
    apply Linear_call_inv in Hm. destruct Hm as [Hm _].
    rewrite relu_width, Hi1 in Hm. exact Hm.
  - intros Hx. apply (forward_total (Z.to_nat dim_z)).
    + intros Ht'. congruence.
    + unfold heads_accept. rewrite Hi1, Hi2. repeat (split; [assumption|]).
      assumption.
  - intros Hx. apply forward_raise_mu, Linear_call_raise.
    now rewrite relu_width, Hi1.
Qed.

(** * Further properties of the plugins *)

(** X12. The routine writes only at its end: when it raises, [losses]
    and [results] are as before the call, and when it returns the only
    entry of [losses] it has written is [vae]. *)
Theorem routine_writes_at_end (inputs targets Z : tensor)
    (vae_criterion : option criterion) (beta_kld : option R)
    (p : VAE) (g : rng) :
  let r := routine inputs targets Z vae_criterion beta_kld (p, g) in
  (forall e, fst r = Raise e ->
     losses (fst (snd r)) = losses p /\ results (fst (snd r)) = results p)
  /\ (fst r = Ok tt ->
      forall k, k <> "vae" -> losses (fst (snd r)) !! k = losses p !! k).
Proof.
  cbv zeta. split.
  - intros e.
    unfold routine, bind, on_vae, lift, vae_attr, update_plugin;
      cbv [fst snd].
    destruct (nets_vae p) as [n|]; [|intros _; split; reflexivity].
    destruct (forward inputs None (n, g)) as [[outputs|e1] [n' g']];
      cbv [fst snd]; [|intros _; split; reflexivity].
    destruct (r_loss_of (default mse_loss vae_criterion) outputs inputs);
      [|intros _; split; reflexivity].
    cbn [nets_vae set_nets_vae].
    destruct (std n'); [|intros _; split; reflexivity].
    cbv [fst snd]. cbn [nets_vae set_nets_vae].
    destruct (mu n'); [|intros _; split; reflexivity].
    cbv [fst snd].
    destruct (kl_of t t0); [discriminate | intros _; split; reflexivity].
  - intros H k Hk.
    destruct (routine inputs targets Z vae_criterion beta_kld (p, g))
      as [r st'] eqn:E. cbv [fst snd] in *. subst r.
    destruct (routine_inv _ _ _ _ _ _ _ _ E)
      as (n & n' & g' & outputs & s & m & r & kl & _ & _ & _ & _ & _ & _ & ->).
    cbv [fst]. unfold routine_post.
    cbn [losses update_results set_loss set_nets_vae].
    now rewrite lookup_insert_ne by congruence.
Qed.

(** X10. [beta_kld] enters the routine only as the weight of the KL term
    in the stored loss: from the same state and on the same batch, runs
    with [b1] and [b2] store [r + b1 * kl] and [r + b2 * kl] for the same
    reconstruction term [r] and the same KL term [kl], and leave the same
    metrics, the same module, the same generator and the same other
    losses. *)
Theorem routine_beta_weights_kl_only (inputs targets Z : tensor)
    (vae_criterion : option criterion) (b1 b2 : R)
    (p : VAE) (g : rng) (st1 st2 : plugin_state) :
  routine inputs targets Z vae_criterion (Some b1) (p, g) = (Ok tt, st1) ->
  routine inputs targets Z vae_criterion (Some b2) (p, g) = (Ok tt, st2) ->
  exists r kl,
    losses (fst st1) !! "vae" = Some (r + b1 * kl)
    /\ losses (fst st2) !! "vae" = Some (r + b2 * kl)
    /\ results (fst st1) !! "KL_divergence" = Some kl
    /\ results (fst st1) = results (fst st2)
    /\ nets_vae (fst st1) = nets_vae (fst st2)
    /\ snd st1 = snd st2
    /\ (forall k, k <> "vae" ->
          losses (fst st1) !! k = losses (fst st2) !! k).
Proof.
  intros H1 H2.
  destruct (routine_inv _ _ _ _ _ _ _ _ H1)
    as (n & n' & g' & outputs & s & m & r & kl
        & Hp & Hf & Hr & Hs & Hm & Hk & ->).
  destruct (routine_inv _ _ _ _ _ _ _ _ H2)
    as (n2 & n2' & g2' & outputs2 & s2 & m2 & r2 & kl2
        & Hp2 & Hf2 & Hr2 & Hs2 & Hm2 & Hk2 & ->).
  rewrite Hp in Hp2. injection Hp2 as <-.
  rewrite Hf in Hf2. injection Hf2 as <- <- <-.
  rewrite Hr in Hr2. injection Hr2 as <-.
  rewrite Hs in Hs2. injection Hs2 as <-.
  rewrite Hm in Hm2. injection Hm2 as <-.
  rewrite Hk in Hk2. injection Hk2 as <-.
  exists r, kl. cbv [fst snd].
  split; [apply routine_post_loss|]. split; [apply routine_post_loss|].
  split; [apply routine_post_KL|].
  repeat (split; [reflexivity|]).
  intros k Hk'. unfold routine_post.
  cbn [losses update_results set_loss set_nets_vae].
  now rewrite !lookup_insert_ne by congruence.
Qed.

(** X13. [build] writes neither [losses] nor [results]; [nets.vae] is
    left as it was when [build] raises, and when [build] returns it is a
    new module in training mode with no recorded [mu], [logvar], [latent]
    or [std], whatever module was installed before. *)
Theorem build_installs_fresh_module (dim_z dim_encoder_out : option pyval)
    (p : VAE) (g : rng) :
  let r := build dim_z dim_encoder_out (p, g) in
  losses (fst (snd r)) = losses p /\ results (fst (snd r)) = results p
  /\ (forall e, fst r = Raise e -> nets_vae (fst (snd r)) = nets_vae p)
  /\ (fst r = Ok tt ->
      exists n, nets_vae (fst (snd r)) = Some n
                /\ mu n = None /\ logvar n = None /\ latent n = None
                /\ std n = None /\ training n = true).
Proof.
  cbv zeta.
  unfold build, VAENetwork_init, on_rng, bind, lift, update_plugin, ret;
    cbv [fst snd].
  destruct encoder_build as [[]|e1]; [|repeat split; discriminate].
  destruct decoder_build as [[]|e2]; [|repeat split; discriminate].
  destruct (add_noise "Z" "normal" (default (PyInt 64) dim_z)) as [[]|e3];
    [|repeat split; discriminate].
  destruct (nn_Linear (default (PyInt 1024) dim_encoder_out)
              (default (PyInt 64) dim_z) g) as [[L1|e4] g1];
    [|repeat split; discriminate].
  destruct (nn_Linear (default (PyInt 1024) dim_encoder_out)
              (default (PyInt 64) dim_z) g1) as [[L2|e5] g2];
    [|repeat split; discriminate].
  cbv [fst snd]. repeat split; [discriminate|].
  intros _. eexists. repeat split.
Qed.

(** ** The decoder plugin and the visualisation hooks *)

Lemma numel_zip_with (f : R -> R -> R) (a b : tensor) :
  same_shape a b -> numel (zip_with (zip_with f) a b) = numel b.
Proof.
  unfold numel. induction 1 as [|r s a b Hrs Hab IH]; simpl; [reflexivity|].
  rewrite !length_app, IH, length_zip_with. lia.
Qed.

Lemma mse_loss_averaged (input target : tensor) :
  same_shape input target ->
  mse_loss input target true
  = Ok (rsum (sum1 (zip_with (zip_with (fun u v => (u - v) ^ 2))
                      input target)) / INR (numel target)).
Proof.
  intros H. pose proof (mse_loss_summed input target H) as Hs.
  unfold mse_loss, sub in *. rewrite (tensor_map2_ok _ _ _ H) in *.
  injection Hs as Hs. rewrite Hs. now rewrite (numel_zip_with _ _ _ H).
Qed.

(** X15. With the default criterion the two routines normalise the
    reconstruction error differently: for a reconstruction of the shape
    of the input, the term of [VAE.routine] (squared error summed, per
    example) is the number of elements of the input times the loss of
    [ImageDecoder.routine] (squared error averaged over the elements, then
    divided by the batch size again). *)
Theorem decoder_loss_is_averaged (inputs Z : tensor) (p : VAE) (g : rng) :
  same_shape (decoder_call Z) inputs -> numel inputs <> 0%nat ->
  exists d r,
    losses (fst (snd (ImageDecoder_routine inputs Z None (p, g))))
      !! "decoder" = Some d
    /\ r_loss_of mse_loss (decoder_call Z) inputs = Ok r
    /\ r = INR (numel inputs) * d.
Proof.
  intros Hsh Hn.
  unfold ImageDecoder_routine, ImageDecoder_decode, r_loss_of, bind, lift,
    update_plugin; cbv [fst snd]. cbn [default from_option id].
  rewrite (mse_loss_averaged _ _ Hsh), (mse_loss_summed _ _ Hsh).
  cbv [fst snd]. cbn [losses update_results set_loss].
  eexists _, _. split; [apply lookup_insert_eq|]. split; [reflexivity|].
  assert (Hnz : INR (numel inputs) <> 0) by now apply not_0_INR.
  assert (Hbz : INR (length inputs) <> 0).
  { apply not_0_INR. destruct inputs; [now elim Hn | discriminate]. }
  unfold Rdiv. field_simplify_eq; [ring | split; assumption].
Qed.

Lemma VAE_visualize_forward (inputs : tensor) (targets : option tensor)
    (p : VAE) (g g' : rng) (log : list artifact) (n n' : VAENetwork)
    (outputs : tensor) :
  nets_vae p = Some n ->
  forward inputs None (n, g) = (Ok outputs, (n', g')) ->
  exists m,
    mu n' = Some m
    /\ VAE_visualize inputs targets ((p, g), log)
       = (labels <- data targets ;;
          add_scatter m (Some labels) "latent values" ;;;
          m <- on_plugin (vae_attr mu) ;;
          ImageDecoder_visualize m)
           ((set_nets_vae n' p, g'),
            (log ++ [Image outputs "reconstruction"])
              ++ [Image inputs "ground truth"]).
Proof.
  intros Hp Hf.
  destruct (forward_inv _ _ _ _ _ _ Hf)
    as (m & lv & z & _ & _ & _ & Hst & _).
  cbv [fst] in Hst. exists m. split; [rewrite Hst; reflexivity|].
  assert (Hmu : mu n' = Some m) by (rewrite Hst; reflexivity).
  unfold VAE_visualize.
  unfold bind at 1. unfold on_plugin at 1, on_vae at 1. cbv [fst snd].
  rewrite Hp, Hf. cbv [fst snd].
  unfold bind at 1. unfold add_image at 1. cbv [fst snd].
  unfold bind at 1. unfold add_image at 1. cbv [fst snd].
  unfold bind at 1. unfold on_plugin at 1, vae_attr at 1. cbv [fst snd].
  cbn [nets_vae set_nets_vae]. rewrite Hmu. reflexivity.
Qed.

(** X16. When the forward pass returns and labels are given,
    [VAE.visualize] hands over, in this order, the reconstruction, the
    input, a scatter of the recorded mean with the labels, and the decoder
    applied to the mean; it is not a read-only operation, since the module
    keeps what that forward pass recorded and the generator is where the
    pass left it. *)
Theorem VAE_visualize_artifacts (inputs labels : tensor)
    (p : VAE) (g g' : rng) (log : list artifact) (n n' : VAENetwork)
    (outputs : tensor) :
  nets_vae p = Some n ->
  forward inputs None (n, g) = (Ok outputs, (n', g')) ->
  exists m,
    mu n' = Some m
    /\ VAE_visualize inputs (Some labels) ((p, g), log)
       = (Ok tt,
          ((set_nets_vae n' p, g'),
           log ++ [Image outputs "reconstruction";
                   Image inputs "ground truth";
                   Scatter m (Some labels) "latent values";
                   Image (decoder_call m) "generated"])).
Proof.
  intros Hp Hf.
  destruct (VAE_visualize_forward inputs (Some labels) p g g' log n n'
              outputs Hp Hf) as (m & Hmu & ->).
  exists m. split; [exact Hmu|].
  unfold data, ImageDecoder_visualize, ImageDecoder_decode, bind, ret,
    add_scatter, add_image, on_plugin, vae_attr; cbv [fst snd].
  cbn [nets_vae set_nets_vae]. rewrite Hmu. cbv [fst snd].
  now rewrite <- !app_assoc.
Qed.

(** X17. Without labels the two plugins differ: [ImageEncoder.visualize]
    hands over a scatter of the encoder's features with no labels and
    returns, while [VAE.visualize] raises [AttributeError] at
    [targets.data], after the forward pass has run and the first two
    images have been handed over. *)
Theorem visualize_without_labels (inputs : tensor)
    (p : VAE) (g g' : rng) (log : list artifact) (n n' : VAENetwork)
    (outputs : tensor) :
  nets_vae p = Some n ->
  forward inputs None (n, g) = (Ok outputs, (n', g')) ->
  VAE_visualize inputs None ((p, g), log)
  = (Raise "AttributeError",
     ((set_nets_vae n' p, g'),
      log ++ [Image outputs "reconstruction"; Image inputs "ground truth"]))
  /\ ImageEncoder_visualize inputs None ((p, g), log)
     = (Ok tt, ((p, g), log ++ [Scatter (encoder inputs) None
                                  "latent values"])).
Proof.
  intros Hp Hf. split.
  - destruct (VAE_visualize_forward inputs None p g g' log n n'
                outputs Hp Hf) as (m & Hmu & ->).
    unfold data, bind, lift; cbv [fst snd]. now rewrite <- !app_assoc.
  - reflexivity.
Qed.

End VAE.

(** * Properties of the classifier *)

Lemma agreements_le (p t : list nat) : (Classifier.agreements p t <= length t)%nat.
Proof.
  revert t; induction p as [|a p IH]; intros [|b t]; simpl; try lia.
  specialize (IH t). destruct (a =? b)%nat; lia.
Qed.

Lemma agreements_all (p t : list nat) :
  length p = length t -> (Classifier.agreements p t = length t <-> p = t).
Proof.
  revert t; induction p as [|a p IH]; intros [|b t] Hl; simpl in *;
    try discriminate.
  - split; reflexivity.
  - pose proof (agreements_le p t) as Hle.
    specialize (IH t ltac:(lia)).
    destruct (a =? b)%nat eqn:E.
    + apply Nat.eqb_eq in E. subst b. split.
      * intros H. f_equal. apply IH. lia.
      * intros [= ->]. f_equal. now apply IH.
    + apply Nat.eqb_neq in E. split; [lia | congruence].
Qed.

Lemma agreements_none (p t : list nat) :
  length p = length t ->
  (Classifier.agreements p t = 0%nat <-> Forall2 (fun a b => a <> b) p t).
Proof.
  revert t; induction p as [|a p IH]; intros [|b t] Hl; simpl in *;
    try discriminate.
  - split; [constructor | reflexivity].
  - specialize (IH t ltac:(lia)).
    destruct (a =? b)%nat eqn:E.
    + apply Nat.eqb_eq in E. split; [lia|].
      inversion 1; subst. congruence.
    + apply Nat.eqb_neq in E. simpl. split.
      * intros H. constructor; [exact E | now apply IH].
      * inversion 1; subst. now apply IH.
Qed.

(** X18. When [torch.max] gives one prediction per label and the batch
    is not empty, [results] returns the criterion as loss and an accuracy
    between 0 and 100, which is 100 exactly when every prediction equals
    its label and 0 exactly when none does. *)
Theorem classifier_accuracy_range (max1 : tensor -> list nat)
    (net : tensor -> tensor) (images : tensor) (targets : list nat)
    (criterion : tensor -> list nat -> R) :
  length (max1 (net images)) = length targets -> targets <> [] ->
  exists acc,
    Classifier.results max1 net (images, targets) criterion
    = Ok (criterion (net images) targets,
          <["accuracy" := acc]>
            (<["loss" := criterion (net images) targets]> ∅),
          "accuracy")
    /\ 0 <= acc <= 100
    /\ (acc = 100 <-> max1 (net images) = targets)
    /\ (acc = 0 <-> Forall2 (fun a b => a <> b) (max1 (net images)) targets).
Proof.
  intros Hl Hne.
  set (k := Classifier.agreements (max1 (net images)) targets).
  exists (100 * INR k / INR (length targets)).
  assert (Hn : 0 < INR (length targets)).
  { apply lt_0_INR. destruct targets; [congruence | simpl; lia]. }
  assert (Hk : 0 <= INR k <= INR (length targets)).
  { split; [apply pos_INR | apply le_INR, agreements_le]. }
  assert (Hinv : 0 < / INR (length targets)) by now apply Rinv_0_lt_compat.
  split; [|split; [|split]].
  - unfold Classifier.results, Classifier.eq_sum.
    apply Nat.eqb_eq in Hl. rewrite Hl. reflexivity.
  - unfold Rdiv. split; [nra|].
    apply (Rmult_le_reg_r (INR (length targets))); [exact Hn|].
    rewrite Rmult_assoc, Rinv_l by lra. lra.
  - rewrite <- (agreements_all _ _ Hl). fold k. split.
    + intros H. apply INR_eq.
      apply (Rmult_eq_compat_r (INR (length targets))) in H.
      unfold Rdiv in H. rewrite Rmult_assoc, Rinv_l in H by lra. lra.
    + intros ->. unfold Rdiv. rewrite Rmult_assoc, Rinv_r by lra. lra.
  - rewrite <- (agreements_none _ _ Hl). fold k. split.
    + intros H. apply INR_eq. simpl.
      apply (Rmult_eq_compat_r (INR (length targets))) in H.
      unfold Rdiv in H. rewrite Rmult_assoc, Rinv_l in H by lra. lra.
    + intros ->. simpl. unfold Rdiv. lra.
Qed.

(** X20. Overrides given to [build_model] persist: because [args] is the
    module-level dictionary, a call after one with overrides [a] builds
    with [a] still in force, so overrides [b] after [a] act as [b] over
    [a], and no overrides after [a] act as [a] again. *)
Theorem build_model_overrides_persist (network : Type)
    (DIM_X DIM_Y DIM_C DIM_L : Z)
    (Net : Z * Z * Z -> Z -> gmap string Classifier.argval -> result network)
    (L1 L2 : Type) (l1 : option L1) (l2 : option L2)
    (a b s : gmap string Classifier.argval) :
  let bm := @Classifier.build_model network DIM_X DIM_Y DIM_C DIM_L Net in
  bm L2 l2 (Some b) (snd (bm L1 l1 (Some a) s)) = bm L2 l2 (Some (b ∪ a)) s
  /\ bm L2 l2 None (snd (bm L1 l1 (Some a) s)) = bm L2 l2 (Some a) s.
Proof.
  cbv zeta.
  assert (Hs : snd (@Classifier.build_model network DIM_X DIM_Y DIM_C DIM_L
                      Net L1 l1 (Some a) s) = a ∪ s).
  { cbv [Classifier.build_model from_option Datatypes.id].
    destruct (Net (DIM_X, DIM_Y, DIM_C) DIM_L (a ∪ s)); reflexivity. }
  rewrite Hs. cbv [Classifier.build_model from_option Datatypes.id].
  split.
  - now rewrite (assoc_L (∪)).
  - now rewrite (left_id_L ∅ (∪)).
Qed.

(** X21. Whether the network constructor returns or raises,
    [build_model] leaves the module-level dictionary updated with the
    overrides: overridden keys hold the override, the others keep their
    value, and no key is ever removed; the network is constructed from
    that updated dictionary, and a call with [None] or with an empty
    dictionary changes nothing. *)
Theorem build_model_updates_defaults (network : Type)
    (DIM_X DIM_Y DIM_C DIM_L : Z)
    (Net : Z * Z * Z -> Z -> gmap string Classifier.argval -> result network)
    (L : Type) (loss : option L)
    (a s : gmap string Classifier.argval) :
  let bm := @Classifier.build_model network DIM_X DIM_Y DIM_C DIM_L Net L in
  let s' := snd (bm loss (Some a) s) in
  s' = a ∪ s
  /\ (forall k v, a !! k = Some v -> s' !! k = Some v)
  /\ (forall k, a !! k = None -> s' !! k = s !! k)
  /\ dom s ⊆ dom s'
  /\ (forall e, Net (DIM_X, DIM_Y, DIM_C) DIM_L s' = Raise e ->
        fst (bm loss (Some a) s) = Raise e)
  /\ (forall net, Net (DIM_X, DIM_Y, DIM_C) DIM_L s' = Ok net ->
        fst (bm loss (Some a) s)
        = Ok ({["classifier" := net]}, {["classifier" := loss]},
              {["classifier" := Classifier.results_fn]}))
  /\ snd (bm loss None s) = s /\ snd (bm loss (Some ∅) s) = s.
Proof.
  cbv zeta.
  assert (Hs : forall c, snd (@Classifier.build_model network DIM_X DIM_Y
                                DIM_C DIM_L Net L loss (Some c) s) = c ∪ s).
  { intros c. cbv [Classifier.build_model from_option Datatypes.id].
    destruct (Net (DIM_X, DIM_Y, DIM_C) DIM_L (c ∪ s)); reflexivity. }
  rewrite !Hs. split; [reflexivity|].
  split; [intros k v Hk; now apply lookup_union_Some_l|].
  split; [intros k Hk; now apply lookup_union_r|].
  split; [rewrite dom_union_L; apply union_subseteq_r|].
  split; [|split; [|split]].
  - intros e He. cbv [Classifier.build_model from_option Datatypes.id]. now rewrite He.
  - intros net He. cbv [Classifier.build_model from_option Datatypes.id]. now rewrite He.
  - cbv [Classifier.build_model from_option Datatypes.id].
    rewrite (left_id_L ∅ (∪)).
    destruct (Net (DIM_X, DIM_Y, DIM_C) DIM_L s); reflexivity.
  - now rewrite (left_id_L ∅ (∪)).
Qed.

(** * Sign and zero of the computed values, in binary32 *)


















(** * The definitions at work on the small instance *)

Abbreviation toy_forward :=
  (forward Toy.rng Toy.normal_ Toy.nonlinearity Toy.encoder Toy.decoder).
Abbreviation toy_routine :=
  (routine Toy.rng Toy.normal_ Toy.nonlinearity Toy.encoder Toy.decoder
           Toy.ms_ssim).
Abbreviation toy_build :=
  (build Toy.rng Toy.nn_Linear Toy.encoder_build Toy.decoder_build
         Toy.add_noise).

Lemma toy_nn_Linear_sized : nn_Linear_sized Toy.rng Toy.nn_Linear.
Proof.
  intros i o g L g'. unfold Toy.nn_Linear.
  destruct ((0 <=? i) && (0 <=? o))%Z; [|discriminate].
  intros [= <- _]. unfold wf_Linear, Toy.zeros; simpl.
  rewrite !repeat_length. repeat split.
  apply Forall_forall. intros w Hw. apply list_elem_of_In in Hw.
  apply repeat_spec in Hw. subst w. apply repeat_length.
Qed.

Lemma toy_built : built_with Toy.rng Toy.nn_Linear 1 1 Toy.built.
Proof. exists 0%nat, 2%nat, Toy.built. repeat split. Qed.

Lemma toy_routine_runs (b : bool) (vae_criterion : option criterion)
    (beta_kld : option R) :
  default mse_loss vae_criterion = mse_loss ->
  exists n' outputs r kl g',
    toy_routine Toy.x0 [] [] vae_criterion beta_kld (Toy.plugin b, 0%nat)
    = (Ok tt, (routine_post Toy.ms_ssim (Toy.plugin b) n' Toy.x0 outputs
                 beta_kld r kl, g')).
Proof.
  intros Hc. destruct b; do 5 eexists;
    (eapply routine_run;
     [reflexivity | reflexivity | rewrite Hc; reflexivity
     | reflexivity | reflexivity | reflexivity]).
Qed.

(** The forward pass of the instance records the exponential of what the
    log-variance head answers. *)
Lemma forward_std_is_exp_of_logvar_witness :
  std (fst (snd (toy_forward Toy.x0 None (Toy.net true, 0%nat))))
  = Some (tensor_map exp (map (Linear_row (Toy.head 0 0)) (relu Toy.x0))).
Proof.
  refine (proj1 (forward_std_is_exp_of_logvar
                   Toy.rng Toy.normal_ Toy.nonlinearity Toy.encoder
                   Toy.decoder Toy.x0 None (Toy.net true) 0%nat _ _ _ _));
    reflexivity.
Defined.

(** In inference mode the forward pass of the instance returns. *)
Lemma forward_eval_decodes_mean_witness :
  exists out st',
    toy_forward Toy.x0 None (Toy.net false, 0%nat) = (Ok out, st').
Proof.
  refine (proj2 (proj2 (forward_eval_decodes_mean
                          Toy.rng Toy.normal_ Toy.nonlinearity Toy.encoder
                          Toy.decoder Toy.x0 None (Toy.net false) 0%nat _))
            _ _).
  - reflexivity.
  - repeat constructor.
  - repeat constructor.
Defined.

(** The module built for one latent dimension gives one-entry vectors. *)
Lemma latent_head_two_vectors_witness :
  exists m lv,
    has_width 1 m /\ has_width 1 lv
    /\ mu (fst (snd (toy_forward Toy.x0 None (Toy.built, 0%nat)))) = Some m
    /\ std (fst (snd (toy_forward Toy.x0 None (Toy.built, 0%nat))))
       = Some (exp_ lv).
Proof.
  destruct (latent_head_two_vectors
              Toy.rng Toy.normal_ Toy.nonlinearity Toy.encoder Toy.decoder
              Toy.nn_Linear 1 1 Toy.x0 None Toy.built 0%nat
              toy_nn_Linear_sized toy_built ltac:(repeat constructor))
    as (m & lv & _ & _ & Hm & Hlv & _ & _ & Hmu & Hstd & _).
  exists m, lv. repeat (split; [assumption|]). assumption.
Defined.

(** The KL term of std 1 and mean 0, and the metric a run of the
    instance stores. *)
Lemma routine_kl_term_witness :
  kl_of [[1]] [[0]] = Ok (kl_spec [[1]] [[0]])
  /\ exists st' s m,
      toy_routine Toy.x0 [] [] None None (Toy.plugin true, 0%nat)
      = (Ok tt, st')
      /\ results (fst st') !! "KL_divergence" = Some (kl_spec s m).
Proof.
  destruct (routine_kl_term Toy.rng Toy.normal_ Toy.nonlinearity Toy.encoder
              Toy.decoder Toy.ms_ssim) as [H1 H2].
  split.
  - apply H1. repeat constructor.
  - destruct (toy_routine_runs true None None eq_refl)
      as (n' & outputs & r & kl & g' & Hrun).
    destruct (H2 _ _ _ _ _ _ _ _ Hrun)
      as (n & n1 & o & s & m & _ & _ & _ & _ & _ & _ & HKL).
    eexists _, s, m. split; [exact Hrun | exact HKL].
Defined.

(** The loss a run of the instance stores, with [beta_kld = 3]. *)
Lemma routine_loss_is_elbo_witness :
  exists st' r_loss kl,
    toy_routine Toy.x0 [] [] None (Some 3) (Toy.plugin true, 0%nat)
    = (Ok tt, st')
    /\ losses (fst st') !! "vae" = Some (r_loss + 3 * kl).
Proof.
  destruct (toy_routine_runs true None (Some 3) eq_refl)
    as (n' & outputs & r & kl & g' & Hrun).
  destruct (proj1 (routine_loss_is_elbo
                     Toy.rng Toy.normal_ Toy.nonlinearity Toy.encoder
                     Toy.decoder Toy.ms_ssim Toy.x0 [] [] None
                     (Toy.plugin true) 0%nat) 3 _ Hrun)
    as (n & n1 & o & s & m & r' & kl' & _ & _ & _ & _ & _ & _ & Hloss).
  eexists _, r', kl'. split; [exact Hrun | exact Hloss].
Defined.


(** The metrics a run of the instance writes into empty [results]. *)
Lemma routine_metrics_witness :
  exists st',
    toy_routine Toy.x0 [] [] None None (Toy.plugin true, 0%nat)
    = (Ok tt, st')
    /\ dom (results (fst st'))
       = {["KL_divergence"; "ms_ssim"]} ∪ dom (results (Toy.plugin true)).
Proof.
  destruct (toy_routine_runs true None None eq_refl)
    as (n' & outputs & r & kl & g' & Hrun).
  destruct (routine_metrics _ _ _ _ _ _ _ _ _ _ _ _ _ _ Hrun)
    as (n & n1 & o & s & m & kl' & _ & _ & _ & _ & _ & _ & Hdom & _).
  eexists. split; [exact Hrun | exact Hdom].
Defined.

(** C9, refuted as worded: a run of the instance from empty [results]
    leaves two metrics, [KL_divergence] and [ms_ssim], and no third one
    for the reconstruction loss. *)
Lemma routine_emits_two_metrics :
  fst (toy_routine Toy.x0 [] [] None None (Toy.plugin true, 0%nat)) = Ok tt
  /\ dom (results
            (fst (snd (toy_routine Toy.x0 [] [] None None
                         (Toy.plugin true, 0%nat)))))
     = {["KL_divergence"; "ms_ssim"]}
  /\ ~ (exists k1 k2 k3 : string,
          k1 <> k2 /\ k1 <> k3 /\ k2 <> k3
          /\ {[k1; k2; k3]}
             ⊆ dom (results
                      (fst (snd (toy_routine Toy.x0 [] [] None None
                                   (Toy.plugin true, 0%nat)))))).
Proof.
  destruct (toy_routine_runs true None None eq_refl)
    as (n' & outputs & r & kl & g' & Hrun).
  rewrite Hrun. cbv [fst snd]. rewrite routine_post_results.
  assert (Hdom : dom (<["ms_ssim" := Toy.ms_ssim Toy.x0 outputs]>
                        (<["KL_divergence" := kl]>
                           (results (Toy.plugin true))))
                 = ({["KL_divergence"; "ms_ssim"]} : gset string)).
  { rewrite !dom_insert_L. cbn [results Toy.plugin]. rewrite dom_empty_L.
    apply set_eq. intros k.
    rewrite !elem_of_union, !elem_of_singleton, elem_of_empty.
    split; [intros [?|[?|[]]] | intros [?|?]]; auto. }
  split; [reflexivity|]. split; [exact Hdom|].
  rewrite Hdom. intros (k1 & k2 & k3 & H12 & H13 & H23 & Hsub).
  assert (Hin : forall k, k ∈ ({[k1; k2; k3]} : gset string) ->
                          k = "KL_divergence" \/ k = "ms_ssim").
  { intros k Hk. apply Hsub in Hk.
    rewrite elem_of_union, !elem_of_singleton in Hk. exact Hk. }
  assert (E1 : k1 = "KL_divergence" \/ k1 = "ms_ssim").
  { apply Hin. rewrite !elem_of_union, !elem_of_singleton. auto. }
  assert (E2 : k2 = "KL_divergence" \/ k2 = "ms_ssim").
  { apply Hin. rewrite !elem_of_union, !elem_of_singleton. auto. }
  assert (E3 : k3 = "KL_divergence" \/ k3 = "ms_ssim").
  { apply Hin. rewrite !elem_of_union, !elem_of_singleton. auto. }
  destruct E1, E2, E3; congruence.
Qed.

(** With both dimensions given, and collaborators that return, [build]
    returns and installs the module. *)
Lemma build_checks_nothing_witness :
  toy_build (Some (PyInt 2)) (Some (PyInt 3)) (Toy.empty_plugin, 0%nat)
  = (Ok tt,
     (set_nets_vae
        (mkVAENetwork (Toy.zeros 3 2) (Toy.zeros 3 2) None None None None
                      true)
        Toy.empty_plugin, 2%nat)).
Proof.
  refine (proj2 (proj2 (build_checks_nothing
                          Toy.rng Toy.nn_Linear Toy.encoder_build
                          Toy.decoder_build Toy.add_noise))
            (Some (PyInt 2)) (Some (PyInt 3)) Toy.empty_plugin 0%nat
            _ 1%nat _ 2%nat _ _ _ _ _); reflexivity.
Defined.

(** C8, refuted as worded: with [dim_z] and [dim_encoder_out] both left
    out, [build] returns normally. *)
Lemma build_missing_dims_returns :
  fst (toy_build None None (Toy.empty_plugin, 0%nat)) = Ok tt
  /\ fst (toy_build None None (Toy.empty_plugin, 0%nat))
     <> Raise "ConfigurationError".
Proof.
  assert (H : fst (toy_build None None (Toy.empty_plugin, 0%nat)) = Ok tt)
    by reflexivity.
  split; [exact H|]. rewrite H. discriminate.
Qed.

(** * The further properties on the small instance *)

Abbreviation toy_encode := (encode Toy.rng Toy.encoder).
Abbreviation toy_reparametrize := (reparametrize Toy.rng Toy.normal_).
Abbreviation toy_decoder_routine :=
  (ImageDecoder_routine Toy.rng Toy.ms_ssim Toy.decoder_call).
Abbreviation toy_visualize :=
  (VAE_visualize Toy.rng Toy.normal_ Toy.nonlinearity Toy.encoder
                 Toy.decoder Toy.decoder_call).

Lemma toy_normal_sized : normal_sized Toy.rng Toy.normal_.
Proof.
  intros sz g. unfold Toy.normal_; cbn [fst snd].
  split; [apply repeat_length|].
  unfold has_width. apply Forall_forall. intros r Hr.
  apply list_elem_of_In, repeat_spec in Hr. subst r. apply repeat_length.
Qed.

Lemma toy_heads_accept (b : bool) :
  heads_accept Toy.encoder 1 (Toy.net b) Toy.x0.
Proof.
  unfold heads_accept, wf_Linear; simpl.
  repeat split; repeat constructor.
Qed.

Lemma toy_forward_returns (b : bool) :
  exists out n' g',
    toy_forward Toy.x0 None (Toy.net b, 0%nat) = (Ok out, (n', g')).
Proof. destruct b; do 3 eexists; reflexivity. Qed.

(** One draw of ones added to a mean of one entry. *)
Lemma reparametrize_training_sample_witness :
  toy_reparametrize [[3]] [[2]] (Toy.net true, 0%nat)
  = (Ok (zip_with (zip_with Rplus) [[3]]
           (zip_with (zip_with Rmult) [[2]]
              (fst (Toy.normal_ (size [[2]]) 0%nat)))),
     (Toy.net true, snd (Toy.normal_ (size [[2]]) 0%nat))).
Proof.
  refine (proj1 (reparametrize_training_sample Toy.rng Toy.normal_ 1
                   [[3]] [[2]] (Toy.net true) 0%nat toy_normal_sized
                   _ _ _ _)).
  - reflexivity.
  - repeat constructor.
  - repeat constructor.
  - reflexivity.
Defined.

(** A training-mode pass of the instance returns. *)
Lemma forward_training_pass_witness :
  exists out st',
    toy_forward Toy.x0 None (Toy.net true, 0%nat) = (Ok out, st').
Proof.
  eexists _, _.
  exact (forward_training_pass Toy.rng Toy.normal_ Toy.nonlinearity
           Toy.encoder Toy.decoder 1 Toy.x0 None (Toy.net true) 0%nat
           toy_normal_sized eq_refl (toy_heads_accept true)).
Defined.

(** The freshly built module has no [logvar] after a pass. *)
Lemma forward_keeps_heads_witness :
  logvar (fst (snd (toy_forward Toy.x0 None (Toy.built, 0%nat)))) = None.
Proof.
  refine (proj2 (proj2 (proj2 (proj2
            (forward_keeps_heads Toy.rng Toy.normal_ Toy.nonlinearity
               Toy.encoder Toy.decoder Toy.nn_Linear Toy.x0 None
               Toy.built 0%nat))))
            (PyInt 1) (PyInt 1) 0%nat 2%nat _).
  reflexivity.
Defined.

(** Examples of two entries are refused by heads of one input. *)
Lemma forward_shape_errors_witness :
  toy_forward [[1; 2]] None (Toy.net true, 0%nat)
  = (Raise "RuntimeError", (Toy.net true, 0%nat)).
Proof.
  refine (proj1 (forward_shape_errors Toy.rng Toy.normal_ Toy.nonlinearity
                   Toy.encoder Toy.decoder [[1; 2]] None (Toy.net true)
                   0%nat) _).
  intros H. inversion H as [|? ? Hl _]. discriminate Hl.
Defined.

(** A second inference pass of the instance changes nothing. *)
Lemma forward_eval_idempotent_witness :
  exists out st',
    toy_forward Toy.x0 None (Toy.net false, 0%nat) = (Ok out, st')
    /\ toy_forward Toy.x0 None st' = (Ok out, st').
Proof.
  destruct (toy_forward_returns false) as (out & n' & g' & H).
  exists out, (n', g'). split; [exact H|].
  exact (forward_eval_idempotent Toy.rng Toy.normal_ Toy.nonlinearity
           Toy.encoder Toy.decoder Toy.x0 None (Toy.net false) 0%nat
           out (n', g') eq_refl H).
Defined.

(** A mean recorded earlier does not change the outcome of a pass. *)
Lemma forward_ignores_recorded_witness :
  fst (toy_forward Toy.x0 None (Toy.net true, 0%nat))
  = fst (toy_forward Toy.x0 None (set_mu [[5]] (Toy.net true), 0%nat)).
Proof.
  exact (proj1 (forward_ignores_recorded Toy.rng Toy.normal_
                  Toy.nonlinearity Toy.encoder Toy.decoder Toy.x0 None
                  (Toy.net true) (set_mu [[5]] (Toy.net true)) 0%nat
                  eq_refl eq_refl eq_refl)).
Defined.

(** The inference pass of the instance decodes what [encode] returns. *)
Lemma forward_eval_is_decode_of_encode_witness :
  exists out st' m,
    toy_forward Toy.x0 None (Toy.net false, 0%nat) = (Ok out, st')
    /\ toy_encode Toy.x0 (Toy.net false, 0%nat)
       = (Ok m, (Toy.net false, 0%nat))
    /\ out = Toy.decoder m None.
Proof.
  destruct (toy_forward_returns false) as (out & n' & g' & H).
  destruct (proj2 (proj2 (forward_eval_is_decode_of_encode
                            Toy.rng Toy.normal_ Toy.nonlinearity
                            Toy.encoder Toy.decoder Toy.x0 None
                            (Toy.net false) 0%nat))
              eq_refl out (n', g') H) as (m & He & Ho).
  exists out, (n', g'), m. split; [exact H|]. split; assumption.
Defined.

(** The module built for one feature, put in inference mode, accepts
    the examples of one entry. *)
Lemma built_module_accepts_iff_witness :
  exists out st',
    toy_forward Toy.x0 None
      (mkVAENetwork (Toy.zeros 1 1) (Toy.zeros 1 1) None None None None
                    false, 0%nat)
    = (Ok out, st').
Proof.
  refine (proj2 (proj1 (built_module_accepts_iff
                          Toy.rng Toy.normal_ Toy.nonlinearity Toy.encoder
                          Toy.decoder Toy.nn_Linear 1 1 Toy.x0 None
                          (mkVAENetwork (Toy.zeros 1 1) (Toy.zeros 1 1)
                             None None None None false) 0%nat
                          toy_nn_Linear_sized _ eq_refl)) _).
  - exists 0%nat, 2%nat, Toy.built. repeat split.
  - repeat constructor.
Defined.

(** A routine that raises, for want of a module, leaves [losses] as
    they were. *)
Lemma routine_writes_at_end_witness :
  losses (fst (snd (toy_routine Toy.x0 [] [] None None
                      (Toy.empty_plugin, 0%nat))))
  = losses Toy.empty_plugin.
Proof.
  refine (proj1 (proj1 (routine_writes_at_end
                          Toy.rng Toy.normal_ Toy.nonlinearity Toy.encoder
                          Toy.decoder Toy.ms_ssim Toy.x0 [] [] None None
                          Toy.empty_plugin 0%nat) "AttributeError" _)).
  reflexivity.
Defined.

(** The two normalisations on a batch of one example of one entry. *)
Lemma decoder_loss_is_averaged_witness :
  exists d r,
    losses (fst (snd (toy_decoder_routine Toy.x0 Toy.x0 None
                        (Toy.plugin true, 0%nat)))) !! "decoder" = Some d
    /\ r_loss_of mse_loss (Toy.decoder_call Toy.x0) Toy.x0 = Ok r
    /\ r = INR (numel Toy.x0) * d.
Proof.
  apply (decoder_loss_is_averaged Toy.rng Toy.ms_ssim Toy.decoder_call
           Toy.x0 Toy.x0 (Toy.plugin true) 0%nat).
  - repeat constructor.
  - discriminate.
Defined.

(** Visualising the instance with labels hands over four artifacts. *)
Lemma VAE_visualize_artifacts_witness :
  exists st',
    toy_visualize Toy.x0 (Some [[0]]) ((Toy.plugin false, 0%nat), [])
    = (Ok tt, st')
    /\ length (snd st') = 4%nat.
Proof.
  destruct (toy_forward_returns false) as (out & n' & g' & H).
  destruct (VAE_visualize_artifacts
              Toy.rng Toy.normal_ Toy.nonlinearity Toy.encoder Toy.decoder
              Toy.decoder_call Toy.x0 [[0]] (Toy.plugin false) 0%nat g' []
              (Toy.net false) n' out eq_refl H) as (m & _ & Hv).
  eexists. split; [exact Hv | reflexivity].
Defined.

(** Visualising the instance without labels raises. *)
Lemma visualize_without_labels_witness :
  fst (toy_visualize Toy.x0 None ((Toy.plugin false, 0%nat), []))
  = Raise "AttributeError".
Proof.
  destruct (toy_forward_returns false) as (out & n' & g' & H).
  exact (f_equal fst
           (proj1 (visualize_without_labels
                     Toy.rng Toy.normal_ Toy.nonlinearity Toy.encoder
                     Toy.decoder Toy.decoder_call Toy.x0 (Toy.plugin false)
                     0%nat g' [] (Toy.net false) n' out eq_refl H))).
Defined.

(** Two predictions, both right. *)
Lemma classifier_accuracy_range_witness :
  exists acc,
    Classifier.results (fun _ => [1; 0]%nat) (fun x => x)
      ([[0; 1]; [1; 0]], [1; 0]%nat) (fun _ _ => 0)
    = Ok (0, <["accuracy" := acc]> (<["loss" := 0]> ∅), "accuracy")
    /\ acc = 100.
Proof.
  destruct (classifier_accuracy_range (fun _ => [1; 0]%nat) (fun x => x)
              [[0; 1]; [1; 0]] [1; 0]%nat (fun _ _ => 0)
              eq_refl ltac:(discriminate))
    as (acc & Hr & _ & Hall & _).
  exists acc. split; [exact Hr|]. apply Hall. reflexivity.
Defined.

(** An override of [dim_h] over the dictionary of the file. *)
Lemma build_model_updates_defaults_witness :
  snd (@Classifier.build_model unit 32 32 3 10 (fun _ _ _ => Ok tt)
         unit None (Some {["dim_h" := Classifier.AInt 512]})
         Classifier.classifier_args_) !! "dim_h"
  = Some (Classifier.AInt 512).
Proof.
  refine (proj1 (proj2 (build_model_updates_defaults
                          unit 32 32 3 10 (fun _ _ _ => Ok tt) unit None
                          {["dim_h" := Classifier.AInt 512]}
                          Classifier.classifier_args_))
            "dim_h" (Classifier.AInt 512) _).
  reflexivity.
Defined.

(** Two runs of the instance, with [beta_kld] 1 and 2. *)
Lemma routine_beta_weights_kl_only_witness :
  exists st1 st2 r kl,
    toy_routine Toy.x0 [] [] None (Some 1) (Toy.plugin true, 0%nat)
    = (Ok tt, st1)
    /\ toy_routine Toy.x0 [] [] None (Some 2) (Toy.plugin true, 0%nat)
       = (Ok tt, st2)
    /\ losses (fst st1) !! "vae" = Some (r + 1 * kl)
    /\ losses (fst st2) !! "vae" = Some (r + 2 * kl)
    /\ results (fst st1) = results (fst st2).
Proof.
  destruct (toy_routine_runs true None (Some 1) eq_refl)
    as (n1 & o1 & r1 & k1 & g1 & Hrun1).
  destruct (toy_routine_runs true None (Some 2) eq_refl)
    as (n2 & o2 & r2 & k2 & g2 & Hrun2).
  destruct (routine_beta_weights_kl_only _ _ _ _ _ _ _ _ _ _ _ _ _ _ _ _
              Hrun1 Hrun2)
    as (r & kl & H1 & H2 & _ & Hres & _).
  eexists _, _, r, kl. split; [exact Hrun1|]. split; [exact Hrun2|].
  repeat (split; [assumption|]). assumption.
Defined.

(** The module [build] installs over an older one has nothing
    recorded. *)
Lemma build_installs_fresh_module_witness :
  exists n,
    nets_vae (fst (snd (toy_build (Some (PyInt 1)) (Some (PyInt 1))
                          (Toy.plugin false, 0%nat)))) = Some n
    /\ mu n = None /\ logvar n = None /\ latent n = None
    /\ std n = None /\ training n = true.
Proof.
  refine (proj2 (proj2 (proj2 (build_installs_fresh_module
                                 Toy.rng Toy.nn_Linear Toy.encoder_build
                                 Toy.decoder_build Toy.add_noise
                                 (Some (PyInt 1)) (Some (PyInt 1))
                                 (Toy.plugin false) 0%nat))) _).
  reflexivity.
Defined.
